(** * ESP-Website: mail gateway helpers and the AdminMorph removal migration

    A shallow embedding of
    - [esp/dbmail/mailgate_helpers.py] (recipient filtering, alias
      resolution, sender parsing and lookup, body rendering), and
    - [esp/program/modules/migrations/0047_remove_adminmorph.py]
      (forward and reverse data migration with a JSON state file),
    followed by the properties proved about them.

    Python [str] values are modelled as [string]; a character is one of the
    256 code points below U+0100.  Database tables are lists of rows in the
    order a query returns them. *)

From Stdlib Require Import String Ascii List Bool Arith ZArith Lia.
From Stdlib Require Import Permutation Sorted.
Import ListNotations.

Local Open Scope string_scope.
Local Open Scope list_scope.

(* ------------------------------------------------------------------ *)
(** ** Python string operations used by the source *)

Module PyStr.

(** [str.isspace] restricted to code points below 256: TAB..CR,
    FS..US, SPACE, NEL and NBSP. *)
Definition is_space (c : ascii) : bool :=
  let n := nat_of_ascii c in
  (((9 <=? n) && (n <=? 13)) || ((28 <=? n) && (n <=? 32))
   || (n =? 133) || (n =? 160))%nat.

(** [str.lower] on one character (Latin-1 range). *)
Definition lower_char (c : ascii) : ascii :=
  let n := nat_of_ascii c in
  if (((65 <=? n) && (n <=? 90))
      || ((192 <=? n) && (n <=? 222) && negb (n =? 215)))%nat
  then ascii_of_nat (n + 32) else c.

Fixpoint lower (s : string) : string :=
  match s with
  | EmptyString => EmptyString
  | String c s' => String (lower_char c) (lower s')
  end.

Fixpoint lstrip (s : string) : string :=
  match s with
  | EmptyString => EmptyString
  | String c s' => if is_space c then lstrip s' else s
  end.

Fixpoint rstrip (s : string) : string :=
  match s with
  | EmptyString => EmptyString
  | String c s' =>
      match rstrip s' with
      | EmptyString => if is_space c then EmptyString else String c EmptyString
      | r => String c r
      end
  end.

(** [s.strip()] *)
Definition strip (s : string) : string := rstrip (lstrip s).

(** [s.endswith(suffix)] *)
Fixpoint endswith (s suffix : string) : bool :=
  if String.eqb s suffix then true
  else match s with
       | EmptyString => false
       | String _ s' => endswith s' suffix
       end.

(** [c in s] for a one-character [c] *)
Fixpoint contains (c : ascii) (s : string) : bool :=
  match s with
  | EmptyString => false
  | String a s' => if Ascii.eqb a c then true else contains c s'
  end.

(** [s.split(sep)] for a one-character separator: never the empty list. *)
Fixpoint split (sep : ascii) (s : string) : list string :=
  match s with
  | EmptyString => [EmptyString]
  | String a s' =>
      if Ascii.eqb a sep then EmptyString :: split sep s'
      else match split sep s' with
           | h :: t => String a h :: t
           | [] => [String a EmptyString]
           end
  end.

(** Truthiness of a [str]: [bool(s)]. *)
Definition truthy (s : string) : bool :=
  match s with EmptyString => false | _ => true end.

(** Membership of a string in a list of strings: [x in l]. *)
Definition mem (x : string) (l : list string) : bool :=
  existsb (String.eqb x) l.

Fixpoint last_char (s : string) : option ascii :=
  match s with
  | EmptyString => None
  | String c EmptyString => Some c
  | String _ s' => last_char s'
  end.

Definition first_char (s : string) : option ascii :=
  match s with
  | EmptyString => None
  | String c _ => Some c
  end.

End PyStr.

(* ------------------------------------------------------------------ *)
(** ** [esp/dbmail/mailgate_helpers.py] *)

Module Mailgate.
Import PyStr.

(** [DOMAIN = '.learningu.org'] *)
Definition DOMAIN : string := ".learningu.org".

(** *** Collaborators: database rows, log records, exceptions *)

(** A [PlainRedirect] row; [destination] is nullable. *)
Record PlainRedirect : Type := mkRedirect {
  original : string;
  destination : option string
}.

(** An [ESPUser] row: primary key, username, email, [date_joined] as a
    timestamp, and the names of the groups the account belongs to. *)
Record ESPUser : Type := mkUser {
  user_id : nat;
  username : string;
  email : string;
  date_joined : Z;
  groups : list string
}.

Record Database : Type := mkDb {
  plain_redirects : list PlainRedirect;
  esp_users : list ESPUser
}.

Inductive level : Type := WARNING | INFO | DEBUG.

Definition log_record : Type := (level * string)%type.

Inductive exn : Type :=
| AttributeError (msg : string)
| IndexError.

Inductive result (A : Type) : Type :=
| Return (a : A)
| Raise (e : exn).
Arguments Return {A} a.
Arguments Raise {A} e.

Definition bind {A B : Type} (r : result A) (k : A -> result B) : result B :=
  match r with
  | Return a => k a
  | Raise e => Raise e
  end.

Notation "x <- r ;; k" := (bind r (fun x => k))
  (at level 61, r at next level, right associativity).

(** [l[i]]: raises [IndexError] out of range. *)
Definition index {A : Type} (l : list A) (i : nat) : result A :=
  match nth_error l i with
  | Some a => Return a
  | None => Raise IndexError
  end.

(** *** [filter_recipients] *)

Definition no_at_warning (recipient : string) : log_record :=
  (WARNING,
   ("Email address without `@` symbol: `" ++ recipient ++ "`")%string).

(** The loop of [filter_recipients], together with the warnings it logs:
    [(real_recipients, aliases, warnings)]. *)
Fixpoint filter_recipients (recipients : list string) (domain : string)
  : list string * list string * list log_record :=
  match recipients with
  | [] => ([], [], [])
  | recipient :: rest =>
      let '(real_recipients, aliases, log) := filter_recipients rest domain in
      if endswith recipient domain then
        (real_recipients, recipient :: aliases, log)
      else if contains "@" recipient then
        (recipient :: real_recipients, aliases, log)
      else
        (real_recipients, aliases, no_at_warning recipient :: log)
  end.

(** *** [resolve_aliases] *)

(** [x.split('@')[0].lower()]; [split] never returns the empty list. *)
Definition local_part (x : string) : string :=
  lower (hd EmptyString (split "@" x)).

(** The [PlainRedirect] query: [Lower(original)] among the local parts,
    destination neither NULL nor empty. *)
Definition redirect_matches (local_parts : list string) (x : PlainRedirect)
  : bool :=
  mem (lower (original x)) local_parts
  && match destination x with
     | None => false
     | Some d => negb (String.eqb d EmptyString)
     end.

(** [x.destination.split(',') if x.destination else []] *)
Definition destinations_of (x : PlainRedirect) : list string :=
  match destination x with
  | Some d => if truthy d then split "," d else []
  | None => []
  end.

Definition user_matches (local_parts : list string) (x : ESPUser) : bool :=
  mem (lower (username x)) local_parts.

(** The final loop: strip, keep what is non-empty and not internal. *)
Fixpoint keep_external (addresses : list string) : list string :=
  match addresses with
  | [] => []
  | address :: rest =>
      let address := strip address in
      if truthy address && negb (endswith address DOMAIN)
      then address :: keep_external rest
      else keep_external rest
  end.

Definition resolve_aliases (db : Database) (aliases : list string)
  : list string :=
  let local_parts := map local_part aliases in
  let redirects := filter (redirect_matches local_parts) (plain_redirects db) in
  let redirect_addresses := flat_map destinations_of redirects in
  let users := filter (user_matches local_parts) (esp_users db) in
  let user_addresses := map email users in
  keep_external (redirect_addresses ++ user_addresses).

(** *** [resolve_recipients] *)

Definition resolve_recipients (db : Database) (recipients : list string)
    (domain : string) : list string :=
  let '(real_recipients, aliases, _) := filter_recipients recipients domain in
  let resolved_from_aliases := resolve_aliases db aliases in
  real_recipients ++ resolved_from_aliases.

(** *** [parse_sender_email] *)

Definition more_than_one_sender : exn :=
  AttributeError "More than one sender".

Definition is_blank_single (addresses : list string) : bool :=
  match addresses with
  | [a] => negb (truthy (strip a))
  | _ => false
  end.

Definition is_nil {A : Type} (l : list A) : bool :=
  match l with [] => true | _ => false end.

(** [from_field] is [None] or a string; the value returned is [None] or
    the address. *)
Definition parse_sender_email (from_field : option string)
  : result (option string) :=
  match from_field with
  | None => Return None
  | Some from_field =>
      if negb (truthy from_field) then Return None
      else
        let addresses := split "," from_field in
        if is_nil addresses || is_blank_single addresses then Return None
        else if negb (Nat.eqb (List.length addresses) 1) then
          Raise more_than_one_sender
        else
          a0 <- index addresses 0 ;;
          let email_address := strip a0 in
          if contains "<" email_address && contains ">" email_address then
            after <- index (split "<" email_address) 1 ;;
            inner <- index (split ">" after) 0 ;;
            Return (Some inner)
          else Return (Some email_address)
  end.

(** *** [lookup_sender] *)

(** Django's [__iexact] lookup. *)
Definition iexact (field value : string) : bool :=
  String.eqb (lower field) (lower value).

(** [order_by('date_joined')]: a stable insertion sort on the table
    order. *)
Fixpoint insert_by_date (u : ESPUser) (l : list ESPUser) : list ESPUser :=
  match l with
  | [] => [u]
  | v :: r =>
      if (date_joined u <=? date_joined v)%Z then u :: l
      else v :: insert_by_date u r
  end.

Fixpoint order_by_date_joined (l : list ESPUser) : list ESPUser :=
  match l with
  | [] => []
  | u :: r => insert_by_date u (order_by_date_joined r)
  end.

Definition sender_matches (email_address email_host_sender : string)
    (u : ESPUser) : bool :=
  if endswith email_address email_host_sender
  then iexact (username u) (hd EmptyString (split "@" email_address))
  else iexact (email u) email_address.

Definition candidates (db : Database)
    (email_address email_host_sender : string) : list ESPUser :=
  order_by_date_joined
    (filter (sender_matches email_address email_host_sender) (esp_users db)).

Definition ROLE_PRIORITY : list string :=
  ["Administrator"; "Teacher"; "Volunteer"; "Student"; "Educator"].

(** [x.groups.filter(name=group_name).exists()] *)
Definition in_group (group_name : string) (x : ESPUser) : bool :=
  mem group_name (groups x).

(** The [for group_name in [...]] loop with its [break]. *)
Fixpoint prioritize (users : list ESPUser) (group_names : list string)
    (sender : ESPUser) : ESPUser :=
  match group_names with
  | [] => sender
  | group_name :: rest =>
      match filter (in_group group_name) users with
      | first :: _ => first
      | [] => prioritize users rest sender
      end
  end.

(** The logger calls do not influence the value returned and are left
    out. *)
Definition lookup_sender (db : Database)
    (email_address email_host_sender : string) : option ESPUser :=
  let users := candidates db email_address email_host_sender in
  match users with
  | [] => None
  | [u] => Some u
  | oldest :: _ => Some (prioritize users ROLE_PRIORITY oldest)
  end.

(** *** [build_email_body] *)

(** The parsed message handed in by the caller: a MIME tree.  A leaf has
    a content type [maintype/subtype], the attachment flag of its
    Content-Disposition and its decoded content; a multipart node has a
    subtype and its parts. *)
#[warnings="-register-all"] Inductive Message : Type :=
| Leaf (maintype subtype : string) (is_attachment : bool) (content : string)
| Multipart (subtype : string) (parts : list Message).

(** [message.get_content_type()] *)
Definition get_content_type (m : Message) : string :=
  match m with
  | Leaf maintype subtype _ _ => (maintype ++ "/" ++ subtype)%string
  | Multipart subtype _ => ("multipart/" ++ subtype)%string
  end.

(** Position of a subtype in [preferencelist=('html', 'plain')]. *)
Definition preference (subtype : string) : option nat :=
  if String.eqb subtype "html" then Some 0
  else if String.eqb subtype "plain" then Some 1
  else None.

(** The candidates [get_body] walks through, in order, with their
    priorities: text leaves of a preferred subtype that are not
    attachments; all parts of a multipart, only the first one of a
    multipart/related (no [start] parameter). *)
Fixpoint find_body (m : Message) : list (nat * Message) :=
  match m with
  | Leaf maintype subtype is_attachment _ =>
      if is_attachment then []
      else if String.eqb maintype "text" then
        match preference subtype with
        | Some prio => [(prio, m)]
        | None => []
        end
      else []
  | Multipart subtype parts =>
      if negb (String.eqb subtype "related") then
        (fix each (ps : list Message) : list (nat * Message) :=
           match ps with
           | [] => []
           | p :: ps' => find_body p ++ each ps'
           end) parts
      else match parts with
           | [] => []
           | p :: _ => find_body p
           end
  end.

(** The first candidate of the best priority. *)
Fixpoint best_body (found : list (nat * Message)) (best_prio : nat)
    (body : option Message) : option Message :=
  match found with
  | [] => body
  | (prio, part) :: rest =>
      if (prio <? best_prio)%nat then
        if (prio =? 0)%nat then Some part else best_body rest prio (Some part)
      else best_body rest best_prio body
  end.

(** [message.get_body(preferencelist=('html', 'plain'))] *)
Definition get_body (m : Message) : option Message :=
  best_body (find_body m) 2 None.

(** [part.get_content()] of a text part. *)
Definition get_content (part : option Message) : result string :=
  match part with
  | Some (Leaf _ _ _ content) => Return content
  | Some (Multipart _ _) => Raise (AttributeError "get_content")
  | None => Raise (AttributeError "'NoneType' object has no attribute 'get_content'")
  end.

Definition quot : string := String (ascii_of_nat 34) EmptyString.
Definition nl : string := String (ascii_of_nat 10) EmptyString.

(** [s.replace(old, new)] for a one-character [old]. *)
Fixpoint replace (old : ascii) (new s : string) : string :=
  match s with
  | EmptyString => EmptyString
  | String c s' =>
      if Ascii.eqb c old then (new ++ replace old new s')%string
      else String c (replace old new s')
  end.

(** [html.escape(s)] with its default [quote=True]: five replacements,
    [&] first. *)
Definition html_escape (s : string) : string :=
  let s := replace "&" "&amp;" s in
  let s := replace "<" "&lt;" s in
  let s := replace ">" "&gt;" s in
  let s := replace (ascii_of_nat 34) "&quot;" s in
  let s := replace "'" "&#x27;" s in
  s.

Definition skeleton_prefix : string :=
  ("<html>" ++ nl ++
   "  <head>" ++ nl ++
   "    <meta charset=" ++ quot ++ "UTF-8" ++ quot ++ ">" ++ nl ++
   "    <title>Email Content</title>" ++ nl ++
   "  </head>" ++ nl ++
   "  <body>" ++ nl ++
   "    ")%string.

Definition skeleton_suffix : string :=
  (nl ++ "  </body>" ++ nl ++ "</html>")%string.

Definition build_email_body (message : Message) : result string :=
  message_content <- get_content (get_body message) ;;
  let content :=
    if negb (String.eqb (get_content_type message) "text/html")
    then html_escape message_content
    else message_content in
  Return (skeleton_prefix ++ content ++ skeleton_suffix)%string.

End Mailgate.

(* ------------------------------------------------------------------ *)
(** ** [esp/program/modules/migrations/0047_remove_adminmorph.py] *)

Module Migration0047.

(** *** The database: registry rows, programs, and the M2M link table *)

Record ProgramModule : Type := mkModule {
  pm_id : nat;
  handler : string;
  link_title : string;
  admin_title : string;
  module_type : string;
  seq : Z;
  choosable : Z
}.

(** [programs] holds the primary keys of the [Program] rows; a link
    [(program id, module id)] is a row of [Program.modules]. *)
Record Database : Type := mkDb {
  program_modules : list ProgramModule;
  programs : list Z;
  links : list (Z * nat)
}.

(** *** The state file *)

#[warnings="-register-all"] Inductive json : Type :=
| JNull
| JBool (b : bool)
| JInt (n : Z)
| JFloat (literal : string)
| JString (s : string)
| JArray (items : list json)
| JObject (members : list (string * json)).

(** What [json.load] makes of the file: text it rejects with a
    [ValueError] ([NotJson]); text nested so deeply that it raises
    [RecursionError] ([TooDeep]); or the value it returns ([Json], a
    float being kept as its literal). *)
Inductive file_content : Type :=
| NotJson (raw : string)
| TooDeep (raw : string)
| Json (data : json).

(** The file [_STATE_FILE] ([None]: it does not exist) and whether its
    directory refuses writes. *)
Record FileSystem : Type := mkFs {
  state_file : option file_content;
  read_only : bool
}.

Inductive exn : Type :=
| OSError
| ValueError
| AttributeError
| TypeError
| OverflowError
| RecursionError
| MultipleObjectsReturned.

(** How a migration function ends, with the state it leaves. *)
Inductive outcome : Type :=
| Done (db : Database) (fs : FileSystem)
| Raised (e : exn) (db : Database) (fs : FileSystem).

(** *** Queries *)

Definition is_adminmorph (m : ProgramModule) : bool :=
  String.eqb (handler m) "AdminMorph".

(** [ProgramModule.objects.filter(handler='AdminMorph')] *)
Definition adminmorph_qs (db : Database) : list ProgramModule :=
  filter is_adminmorph (program_modules db).

Definition linked (db : Database) (pid : Z) (m : ProgramModule) : bool :=
  existsb (fun l => Z.eqb (fst l) pid && Nat.eqb (snd l) (pm_id m)) (links db).

(** [Program.objects.filter(modules=am_module).values_list('id', flat=True)] *)
Definition programs_with (db : Database) (am_module : ProgramModule) : list Z :=
  filter (fun pid => linked db pid am_module) (programs db).

(** [seen_ids.add(pid)] on a set kept as a duplicate-free list. *)
Definition set_add (pid : Z) (seen : list Z) : list Z :=
  if existsb (Z.eqb pid) seen then seen else seen ++ [pid].

Definition collect_ids (db : Database) : list Z :=
  fold_left
    (fun seen am_module => fold_left (fun s pid => set_add pid s)
                                     (programs_with db am_module) seen)
    (adminmorph_qs db) [].

Fixpoint insert_sorted (x : Z) (l : list Z) : list Z :=
  match l with
  | [] => [x]
  | y :: r => if (x <=? y)%Z then x :: l else y :: insert_sorted x r
  end.

(** [sorted(seen_ids)] *)
Definition sorted (l : list Z) : list Z :=
  fold_right insert_sorted [] l.

(** *** Forward: [remove_adminmorph_programmodule] *)

(** [json.dump({'program_ids': ids}, fh)] into [open(_STATE_FILE, 'w')];
    [None] stands for the [OSError]. *)
Definition write_state (fs : FileSystem) (ids : list Z) : option FileSystem :=
  if read_only fs then None
  else Some {| state_file :=
                 Some (Json (JObject [("program_ids", JArray (map JInt ids))]));
               read_only := false |}.

Definition deleted_link (db : Database) (l : Z * nat) : bool :=
  existsb (fun m => Nat.eqb (pm_id m) (snd l)) (adminmorph_qs db).

(** [adminmorph_qs.delete()], cascading to the link rows. *)
Definition delete_adminmorph (db : Database) : Database :=
  {| program_modules := filter (fun m => negb (is_adminmorph m)) (program_modules db);
     programs := programs db;
     links := filter (fun l => negb (deleted_link db l)) (links db) |}.

Definition nonempty {A : Type} (l : list A) : bool :=
  match l with [] => false | _ => true end.

Definition remove_adminmorph_programmodule (db : Database) (fs : FileSystem)
  : outcome :=
  let ids := sorted (collect_ids db) in
  match write_state fs ids with
  | Some fs' => Done (delete_adminmorph db) fs'
  | None =>
      if nonempty ids then Raised OSError db fs
      else Done (delete_adminmorph db) fs
  end.

(** *** Reverse: [restore_adminmorph_programmodule] *)

Definition next_pm_id (db : Database) : nat :=
  S (fold_right Nat.max 0 (map pm_id (program_modules db))).

Definition adminmorph_defaults (id : nat) : ProgramModule :=
  {| pm_id := id;
     handler := "AdminMorph";
     link_title := "Morph into User";
     admin_title := "User Morphing Capability";
     module_type := "manage";
     seq := 34;
     choosable := 1 |}.

(** [ProgramModule.objects.get_or_create(handler='AdminMorph', defaults=...)] *)
Definition get_or_create (db : Database) : (ProgramModule * Database) + exn :=
  match adminmorph_qs db with
  | [] =>
      let am := adminmorph_defaults (next_pm_id db) in
      inl (am, {| program_modules := program_modules db ++ [am];
                  programs := programs db;
                  links := links db |})
  | [am] => inl (am, db)
  | _ => inr MultipleObjectsReturned
  end.

(** [dict.get(key, default)] on the members as parsed (a later duplicate
    key wins). *)
Fixpoint dict_get (members : list (string * json)) (key : string)
    (default : json) : json :=
  match members with
  | [] => default
  | (k, v) :: rest =>
      dict_get rest key (if String.eqb k key then v else default)
  end.

(** The [try] block of the reverse migration: [inl] is the value of
    [ids_to_restore] after it, [inr] an exception it does not catch. *)
Definition read_state (fs : FileSystem) : json + exn :=
  match state_file fs with
  | None => inl (JArray [])                       (* OSError *)
  | Some (NotJson _) => inl (JArray [])           (* ValueError *)
  | Some (TooDeep _) => inr RecursionError        (* not caught *)
  | Some (Json (JObject members)) =>
      inl (dict_get members "program_ids" (JArray []))
  | Some (Json _) => inr AttributeError           (* no [get] *)
  end.

(** The integers of a list that holds nothing else. *)
Fixpoint ints_of (items : list json) : option (list Z) :=
  match items with
  | [] => Some []
  | JInt n :: rest => option_map (cons n) (ints_of rest)
  | _ :: _ => None
  end.

(** [program.modules.add(am)] *)
Definition add_link (am : ProgramModule) (ls : list (Z * nat)) (pid : Z)
  : list (Z * nat) :=
  if existsb (fun l => Z.eqb (fst l) pid && Nat.eqb (snd l) (pm_id am)) ls
  then ls else ls ++ [(pid, pm_id am)].

(** The loop over [Program.objects.filter(id__in=ids_to_restore)]. *)
Definition restore_links (db : Database) (am : ProgramModule) (ids : list Z)
  : Database :=
  {| program_modules := program_modules db;
     programs := programs db;
     links := fold_left (add_link am)
                (filter (fun pid => existsb (Z.eqb pid) ids) (programs db))
                (links db) |}.

(** [os.remove(_STATE_FILE)] with its [OSError] swallowed. *)
Definition remove_state_file (fs : FileSystem) : FileSystem :=
  if read_only fs then fs
  else {| state_file := None; read_only := read_only fs |}.

Section Reverse.

(** What Django's [id__in] lookup makes of a value that is not a list of
    integers: the ids it coerces the value to (it accepts strings of
    digits, for instance), or the exception it raises.  Django is not
    part of the repository: the lookup is a parameter. *)
Variable coerce_ids : json -> list Z + exn.

(** The ids [Program.objects.filter(id__in=ids_to_restore)] looks for:
    those of a list of integers, as the forward migration writes it, and
    what Django makes of any other value. *)
Definition ids_of_json (v : json) : list Z + exn :=
  match v with
  | JArray items =>
      match ints_of items with
      | Some ids => inl ids
      | None => coerce_ids v
      end
  | _ => coerce_ids v
  end.

Definition restore_adminmorph_programmodule (db : Database) (fs : FileSystem)
  : outcome :=
  match get_or_create db with
  | inr e => Raised e db fs
  | inl (am, db1) =>
      match read_state fs with
      | inr e => Raised e db1 fs
      | inl ids_to_restore =>
          match ids_of_json ids_to_restore with
          | inr e => Raised e db1 fs
          | inl ids => Done (restore_links db1 am ids) (remove_state_file fs)
          end
      end
  end.

End Reverse.

End Migration0047.

(* ------------------------------------------------------------------ *)
(** ** Predicates and sample data the statements use *)

Module MailgateProps.
Import PyStr Mailgate.

(** The three classes [filter_recipients] distinguishes. *)
Definition is_alias (domain recipient : string) : bool :=
  endswith recipient domain.

Definition is_real (domain recipient : string) : bool :=
  negb (endswith recipient domain) && contains "@" recipient.

Definition is_dropped (domain recipient : string) : bool :=
  negb (endswith recipient domain) && negb (contains "@" recipient).

(** A string of white space only. *)
Fixpoint all_space (s : string) : bool :=
  match s with
  | EmptyString => true
  | String c s' => is_space c && all_space s'
  end.

(** The specification's reading of the bracket rule: the substring
    between the first [<] and the first [>]. *)
Fixpoint after_first (c : ascii) (s : string) : string :=
  match s with
  | EmptyString => EmptyString
  | String a s' => if Ascii.eqb a c then s' else after_first c s'
  end.

Fixpoint before_first (c : ascii) (s : string) : string :=
  match s with
  | EmptyString => EmptyString
  | String a s' =>
      if Ascii.eqb a c then EmptyString else String a (before_first c s')
  end.

Definition spec_between_brackets (s : string) : string :=
  before_first ">" (after_first "<" s).

(** The specification's reading of the error condition: the candidates
    of the comma split that are not empty. *)
Definition spec_nonempty_candidates (s : string) : list string :=
  filter truthy (split "," s).

(** Created no later than. *)
Definition older (u v : ESPUser) : Prop := (date_joined u <= date_joined v)%Z.

(** A list in creation order: every account is [older] than all after
    it. *)
Inductive by_date : list ESPUser -> Prop :=
| by_date_nil : by_date []
| by_date_cons u l : Forall (older u) l -> by_date l -> by_date (u :: l).

(** The accounts a lookup is about: rows of the table the filter keeps. *)
Definition matching (db : Database) (email_address email_host_sender : string)
    (u : ESPUser) : Prop :=
  In u (esp_users db)
  /\ sender_matches email_address email_host_sender u = true.

(** The redirect of the specification's example, under a key in mixed
    case. *)
Definition team_redirect : PlainRedirect :=
  mkRedirect "Team" (Some "a@x.com,b@y.com").

Definition team_db : Database :=
  {| plain_redirects := [team_redirect];
     esp_users := [mkUser 1 "b" "b@b.org" 0 []] |}.

(** Two accounts sharing an address, and an unrelated administrator. *)
Definition teacher_account : ESPUser :=
  mkUser 2 "user_t" "dup@gmail.com" 200 ["Teacher"].

Definition student_account : ESPUser :=
  mkUser 1 "user_s" "dup@gmail.com" 100 ["Student"].

Definition two_accounts : Database :=
  {| plain_redirects := [];
     esp_users := [student_account;
                   mkUser 3 "other" "other@gmail.com" 50 ["Administrator"];
                   teacher_account] |}.

(** A message with a plain-text part and an HTML alternative. *)
Definition html_alternative : Message :=
  Multipart "alternative"
    [Leaf "text" "plain" false "fallback text";
     Leaf "text" "html" false "<p>Hello <b>world</b></p>"].

End MailgateProps.

Module MigrationProps.
Import Migration0047.

(** An affected association: a program linked to a registry row whose
    handler is AdminMorph. *)
Definition association (db : Database) (pid : Z) (m : ProgramModule) : Prop :=
  In m (program_modules db) /\ handler m = "AdminMorph"
  /\ In pid (programs db) /\ In (pid, pm_id m) (links db).

(** A database with AdminMorph installed on programs 1 and 3. *)
Definition morph_row : ProgramModule :=
  {| pm_id := 7; handler := "AdminMorph"; link_title := "Morph into User";
     admin_title := "User Morphing Capability"; module_type := "manage";
     seq := 34; choosable := 1 |}.

Definition other_row : ProgramModule :=
  {| pm_id := 8; handler := "AdminCore"; link_title := "Dashboard";
     admin_title := "Core"; module_type := "manage";
     seq := -9999; choosable := 1 |}.

Definition installed : Database :=
  {| program_modules := [morph_row; other_row];
     programs := [3; 1]%Z;
     links := [(3%Z, 7); (3%Z, 8); (1%Z, 7)] |}.

Definition locked : FileSystem := {| state_file := None; read_only := true |}.

Definition writable : FileSystem := {| state_file := None; read_only := false |}.

(** The database after the forward migration, and a state file that is
    not JSON. *)
Definition migrated : Database :=
  {| program_modules := [other_row]; programs := [3; 1]%Z;
     links := [(3%Z, 8)] |}.

Definition garbled : FileSystem :=
  {| state_file := Some (NotJson "{program_ids"); read_only := false |}.

(** A conversion for the closed examples, which only hold lists of
    integers: it refuses every other value. *)
Definition refuse_ids (v : json) : list Z + exn := inr TypeError.

(** Five thousand opening brackets: text that is not JSON, and on which
    [json.load] exceeds the recursion limit. *)
Definition deep_text : string := N.iter 5000 (String "[") EmptyString.

Definition deep_file : FileSystem :=
  {| state_file := Some (TooDeep deep_text); read_only := false |}.

End MigrationProps.

(* ------------------------------------------------------------------ *)
(** ** [extract_attachments] *)

Module Attachments.
Import PyStr Mailgate.

(** One part yielded by [msg.iter_attachments()], as the function reads
    it: [get_filename()] ([None] when the part has none),
    [get_payload(decode=True)] ([None] when there is nothing to decode,
    else the bytes) and [get_content_type()]. *)
Record Part : Type := mkPart {
  get_filename : option string;
  get_payload : option string;
  part_content_type : string
}.

(** A [(filename, content, mimetype)] tuple. *)
Definition attachment : Type := (option string * string * string)%type.

(** ['{}'.format(filename)] *)
Definition format_filename (filename : option string) : string :=
  match filename with
  | Some name => name
  | None => "None"
  end.

Definition no_content_info (filename : option string) : log_record :=
  (INFO, ("No content in attachment " ++ format_filename filename)%string).

(** [if content:] on [None] or bytes. *)
Definition has_content (part : Part) : bool :=
  match get_payload part with
  | Some content => truthy content
  | None => false
  end.

(** The loop of [extract_attachments] over the parts the message yields,
    with the records it logs. *)
Fixpoint extract_attachments (parts : list Part)
  : list attachment * list log_record :=
  match parts with
  | [] => ([], [])
  | part :: rest =>
      let '(attachments, log) := extract_attachments rest in
      let filename := get_filename part in
      let mimetype := part_content_type part in
      match get_payload part with
      | Some content =>
          if truthy content
          then ((filename, content, mimetype) :: attachments, log)
          else (attachments, no_content_info filename :: log)
      | None => (attachments, no_content_info filename :: log)
      end
  end.

End Attachments.

(* ------------------------------------------------------------------ *)
(** ** [esp/program/modules/migrations/0048_remove_adminmorph.py] *)

Module Migration0048.

(** [ProgramModule.objects.filter(handler='AdminMorph').delete()]; the
    reverse operation is [RunPython.noop]. *)
Definition remove_adminmorph_programmodule (db : Migration0047.Database)
  : Migration0047.Database :=
  Migration0047.delete_adminmorph db.

End Migration0048.

(* ------------------------------------------------------------------ *)
(** ** Further predicates and sample data *)

Module MoreProps.
Import PyStr Mailgate Attachments.

(** A database with the redirects only, and one with the users only. *)
Definition redirects_only (db : Mailgate.Database) : Mailgate.Database :=
  {| plain_redirects := plain_redirects db; esp_users := [] |}.

Definition users_only (db : Mailgate.Database) : Mailgate.Database :=
  {| plain_redirects := []; esp_users := esp_users db |}.

(** Redirects to an internal address, with a blank component, and a user
    whose address needs stripping. *)
Definition mixed_db : Mailgate.Database :=
  {| plain_redirects :=
       [mkRedirect "Team" (Some "a@x.com, b@y.com,,z@site.learningu.org");
        mkRedirect "gone" None];
     esp_users := [mkUser 1 "JSmith" "js@gmail.com " 5 []] |}.

(** A non-attachment text leaf of the given subtype. *)
Definition text_leaf (subtype : string) (m : Message) : bool :=
  match m with
  | Leaf maintype st is_attachment _ =>
      negb is_attachment && String.eqb maintype "text" && String.eqb st subtype
  | Multipart _ _ => false
  end.

Definition is_leaf (m : Message) : bool :=
  match m with
  | Leaf _ _ _ _ => true
  | Multipart _ _ => false
  end.

(** The body built around the given content. *)
Definition wrap (content : string) : string :=
  (skeleton_prefix ++ content ++ skeleton_suffix)%string.

(** What [build_email_body] makes of the part [get_body] chose in a
    multipart message. *)
Definition escaped_body_of (part : option Message) : result string :=
  match part with
  | Some (Leaf _ _ _ content) => Return (wrap (html_escape content))
  | Some (Multipart _ _) => Raise (AttributeError "get_content")
  | None =>
      Raise (AttributeError
               "'NoneType' object has no attribute 'get_content'")
  end.

(** A message with an attachment first, then a plain and an HTML part. *)
Definition newsletter : Message :=
  Multipart "mixed"
    [Leaf "text" "html" true "<b>attached</b>";
     Leaf "text" "plain" false "plain & simple";
     Leaf "image" "png" false "PNG";
     Leaf "text" "html" false "<i>rich</i>"].

Definition report_pdf : Part :=
  mkPart (Some "doc.pdf") (Some "pdf data") "application/pdf".

Definition empty_part : Part :=
  mkPart (Some "empty.txt") (Some EmptyString) "text/plain".

Definition nameless_part : Part := mkPart None None "multipart/mixed".

(** The tuple [extract_attachments] builds for a part with content. *)
Definition tuple_of (part : Part) : attachment :=
  (get_filename part,
   match get_payload part with Some content => content | None => EmptyString end,
   part_content_type part).

End MoreProps.

Module MoreMigrationProps.
Import Migration0047 MigrationProps.

(** Every link points to a registry row. *)
Definition links_to_rows (db : Database) : Prop :=
  forall pid i, In (pid, i) (links db) ->
                exists m, In m (program_modules db) /\ pm_id m = i.

(** Primary keys of the registry are unique. *)
Definition unique_ids (db : Database) : Prop :=
  NoDup (map pm_id (program_modules db)).

(** The state [json.dump] writes for the given ids. *)
Definition state_of (ids : list Z) : file_content :=
  Json (JObject [("program_ids", JArray (map JInt ids))]).

(** A state file naming programs 1 and 3 and a program that is gone. *)
Definition saved : FileSystem :=
  {| state_file := Some (state_of [1; 3; 99]%Z); read_only := false |}.

Definition is_object (j : json) : bool :=
  match j with
  | JObject _ => true
  | _ => false
  end.

End MoreMigrationProps.

(* ------------------------------------------------------------------ *)
(** ** Facts about the string operations *)

Module PyStrFacts.
Import PyStr.

Lemma endswith_unfold (s suffix : string) :
  endswith s suffix =
  if String.eqb s suffix then true
  else match s with
       | EmptyString => false
       | String _ s' => endswith s' suffix
       end.
Proof. destruct s; reflexivity. Qed.

Lemma endswith_refl (s : string) : endswith s s = true.
Proof. rewrite endswith_unfold. now rewrite String.eqb_refl. Qed.

Lemma endswith_app (p suffix : string) :
  endswith (p ++ suffix) suffix = true.
Proof.
  induction p as [|c p IH].
  - apply endswith_refl.
  - rewrite endswith_unfold. cbn [String.append]. rewrite IH.
    now destruct (String.eqb _ _).
Qed.

(** [endswith] is the suffix relation. *)
Lemma endswith_spec (s suffix : string) :
  endswith s suffix = true <-> exists p, s = (p ++ suffix)%string.
Proof.
  split.
  - induction s as [|c s IH]; rewrite endswith_unfold.
    + destruct (String.eqb_spec EmptyString suffix) as [<-|]; [|discriminate].
      intros _. now exists EmptyString.
    + destruct (String.eqb_spec (String c s) suffix) as [<-|_].
      * intros _. now exists EmptyString.
      * intros H. destruct (IH H) as [p ->]. now exists (String c p).
  - intros [p ->]. apply endswith_app.
Qed.

Lemma append_empty_r (s : string) : (s ++ EmptyString)%string = s.
Proof. induction s as [|c s IH]; simpl; [reflexivity | now rewrite IH]. Qed.

Lemma contains_app (c : ascii) (s t : string) :
  contains c (s ++ t) = contains c s || contains c t.
Proof.
  induction s as [|a s IH]; simpl; [reflexivity|].
  now destruct (Ascii.eqb a c).
Qed.

Lemma split_not_nil (sep : ascii) (s : string) : split sep s <> [].
Proof.
  destruct s as [|a s]; simpl; [discriminate|].
  destruct (Ascii.eqb a sep); [discriminate|].
  destruct (split sep s); discriminate.
Qed.

(** Without the separator, [split] returns the string itself. *)
Lemma split_absent (sep : ascii) (s : string) :
  contains sep s = false -> split sep s = [s].
Proof.
  induction s as [|a s IH]; simpl; [reflexivity|].
  destruct (Ascii.eqb a sep); [discriminate|].
  intros H. now rewrite (IH H).
Qed.

(** At the first separator, [split] cuts. *)
Lemma split_first (sep : ascii) (pre rest : string) :
  contains sep pre = false ->
  split sep (pre ++ String sep rest) = pre :: split sep rest.
Proof.
  induction pre as [|a pre IH]; simpl.
  - intros _. now rewrite Ascii.eqb_refl.
  - destruct (Ascii.eqb a sep); [discriminate|].
    intros H. now rewrite (IH H).
Qed.

Lemma split_length_present (sep : ascii) (s : string) :
  contains sep s = true -> 2 <= List.length (split sep s).
Proof.
  induction s as [|a s IH]; simpl; [discriminate|].
  destruct (Ascii.eqb a sep).
  - intros _. pose proof (split_not_nil sep s).
    destruct (split sep s); [congruence | simpl; lia].
  - intros H. specialize (IH H).
    destruct (split sep s); simpl in *; lia.
Qed.

(** [split] yields a single token exactly when the separator is absent. *)
Lemma split_single_iff (sep : ascii) (s : string) :
  List.length (split sep s) = 1 <-> contains sep s = false.
Proof.
  split.
  - intros H. destruct (contains sep s) eqn:E; [|reflexivity].
    apply split_length_present in E. lia.
  - intros H. now rewrite split_absent.
Qed.

Lemma lstrip_first (s : string) (c : ascii) :
  first_char (lstrip s) = Some c -> is_space c = false.
Proof.
  induction s as [|a s IH]; simpl; [discriminate|].
  destruct (is_space a) eqn:E; [exact IH|].
  simpl. now intros [= <-].
Qed.

Lemma rstrip_last (s : string) (c : ascii) :
  last_char (rstrip s) = Some c -> is_space c = false.
Proof.
  induction s as [|a s IH]; simpl; [discriminate|].
  destruct (rstrip s) as [|b r] eqn:E.
  - destruct (is_space a) eqn:Ea; simpl; [discriminate|].
    now intros [= <-].
  - exact IH.
Qed.

(** [rstrip] keeps the first character of what it leaves. *)
Lemma rstrip_first (s : string) :
  rstrip s <> EmptyString -> first_char (rstrip s) = first_char s.
Proof.
  destruct s as [|a s]; simpl; [congruence|].
  destruct (rstrip s); [|reflexivity].
  destruct (is_space a); [congruence | reflexivity].
Qed.

(** A stripped string has no white space at either end. *)
Lemma strip_ends (s : string) :
  (forall c, first_char (strip s) = Some c -> is_space c = false)
  /\ (forall c, last_char (strip s) = Some c -> is_space c = false).
Proof.
  unfold strip. split; intros c H.
  - destruct (string_dec (rstrip (lstrip s)) EmptyString) as [E|E].
    + rewrite E in H. discriminate.
    + rewrite (rstrip_first _ E) in H. exact (lstrip_first _ _ H).
  - exact (rstrip_last _ _ H).
Qed.

Lemma truthy_true (s : string) : truthy s = true <-> s <> EmptyString.
Proof. destruct s; simpl; split; congruence. Qed.

Lemma rstrip_fixed (s : string) :
  (forall c, last_char s = Some c -> is_space c = false) -> rstrip s = s.
Proof.
  induction s as [|a s IH]; simpl; [reflexivity|].
  destruct s as [|b s].
  - simpl. intros H. now rewrite (H a eq_refl).
  - intros H. rewrite (IH H). reflexivity.
Qed.

(** [strip] leaves alone a string with no white space at its ends. *)
Lemma strip_fixed (s : string) :
  (forall c, first_char s = Some c -> is_space c = false) ->
  (forall c, last_char s = Some c -> is_space c = false) ->
  strip s = s.
Proof.
  intros Hf Hl. unfold strip.
  assert (E : lstrip s = s).
  { destruct s as [|a s]; simpl; [reflexivity|].
    now rewrite (Hf a eq_refl). }
  rewrite E. now apply rstrip_fixed.
Qed.

End PyStrFacts.

(* ------------------------------------------------------------------ *)
(** ** Recipient filtering and alias resolution *)

Module RecipientFacts.
Import PyStr PyStrFacts Mailgate MailgateProps.

(** *** [filter_recipients] as three filters *)

Lemma filter_recipients_filters (recipients : list string) (domain : string) :
  filter_recipients recipients domain =
  (filter (is_real domain) recipients,
   filter (is_alias domain) recipients,
   map no_at_warning (filter (is_dropped domain) recipients)).
Proof.
  induction recipients as [|r rest IH]; [reflexivity|].
  cbn [filter_recipients filter]. rewrite IH.
  unfold is_real, is_alias, is_dropped.
  destruct (endswith r domain); [reflexivity|].
  destruct (contains "@" r); reflexivity.
Qed.

(** Every address falls in exactly one of the three classes the code
    distinguishes. *)
Lemma filter_recipients_classes (domain r : string) :
  (is_alias domain r = true /\ is_real domain r = false /\ is_dropped domain r = false)
  \/ (is_alias domain r = false /\ is_real domain r = true /\ is_dropped domain r = false)
  \/ (is_alias domain r = false /\ is_real domain r = false /\ is_dropped domain r = true).
Proof.
  unfold is_alias, is_real, is_dropped.
  destruct (endswith r domain), (contains "@" r); simpl; tauto.
Qed.

(** An address without [@] that does not end in the suffix is in neither
    output. *)
Lemma filter_recipients_drops_no_at (recipients : list string)
    (domain r : string) :
  contains "@" r = false -> endswith r domain = false ->
  ~ In r (fst (fst (filter_recipients recipients domain)))
  /\ ~ In r (snd (fst (filter_recipients recipients domain))).
Proof.
  intros Hat Hend. rewrite filter_recipients_filters. cbn [fst snd].
  split; intros H; apply filter_In in H; destruct H as [_ H];
    unfold is_real, is_alias in H; rewrite ?Hat, ?Hend in H;
    simpl in H; discriminate.
Qed.

(** *** [resolve_aliases] *)

Lemma keep_external_inv (l : list string) (a : string) :
  In a (keep_external l) ->
  exists x, In x l /\ a = strip x /\ a <> EmptyString
            /\ endswith a DOMAIN = false.
Proof.
  induction l as [|x l IH]; cbn [keep_external]; [intros []|].
  destruct (truthy (strip x)) eqn:Ht; cbn [andb].
  - destruct (endswith (strip x) DOMAIN) eqn:He; cbn [negb].
    + intros H. destruct (IH H) as (y & Hy & R). exists y. split; [now right | exact R].
    + intros [<-|H].
      * exists x. repeat split; [now left | now apply truthy_true | exact He].
      * destruct (IH H) as (y & Hy & R). exists y. split; [now right | exact R].
  - intros H. destruct (IH H) as (y & Hy & R). exists y. split; [now right | exact R].
Qed.

Lemma keep_external_intro (l : list string) (x : string) :
  In x l -> strip x <> EmptyString -> endswith (strip x) DOMAIN = false ->
  In (strip x) (keep_external l).
Proof.
  intros Hin Hne Hext.
  induction l as [|y l IH]; [destruct Hin|].
  cbn [keep_external].
  destruct Hin as [->|Hin].
  - apply truthy_true in Hne. rewrite Hne, Hext. now left.
  - destruct (truthy (strip y) && negb (endswith (strip y) DOMAIN));
      [right|]; now apply IH.
Qed.

Lemma mem_In (x : string) (l : list string) :
  mem x l = true <-> In x l.
Proof.
  unfold mem. rewrite existsb_exists. split.
  - intros (y & Hy & E). apply String.eqb_eq in E. now subst.
  - intros H. exists x. split; [exact H | apply String.eqb_refl].
Qed.

Lemma resolve_aliases_nil (db : Database) : resolve_aliases db [] = [].
Proof.
  unfold resolve_aliases. cbn [map].
  assert (R : filter (redirect_matches []) (plain_redirects db) = []).
  { induction (plain_redirects db) as [|x l IH]; [reflexivity|exact IH]. }
  assert (U : filter (user_matches []) (esp_users db) = []).
  { induction (esp_users db) as [|x l IH]; [reflexivity|exact IH]. }
  rewrite R, U. reflexivity.
Qed.

(** C1. For every database state and every list of aliases, no address
    returned by [resolve_aliases] ends with the internal domain suffix
    ['.learningu.org']. *)
Theorem resolve_aliases_never_internal
    (db : Database) (aliases : list string) :
  Forall (fun address => endswith address DOMAIN = false)
         (resolve_aliases db aliases).
Proof.
  apply Forall_forall. intros a H.
  apply keep_external_inv in H. now destruct H as (_ & _ & _ & _ & H).
Qed.

(** C10. Every address returned by [resolve_aliases] is non-empty and has
    no white space at its start or at its end, for every database state
    and every list of aliases: what is empty after stripping is dropped. *)
Theorem resolve_aliases_stripped_nonempty
    (db : Database) (aliases : list string) :
  Forall (fun address =>
            address <> EmptyString
            /\ (forall c, first_char address = Some c -> is_space c = false)
            /\ (forall c, last_char address = Some c -> is_space c = false))
         (resolve_aliases db aliases).
Proof.
  apply Forall_forall. intros a H.
  apply keep_external_inv in H. destruct H as (x & _ & -> & Hne & _).
  split; [exact Hne | apply strip_ends].
Qed.

(** The trailing comma of the destination ["a@x.com,"] leaves no empty
    address behind. *)
Example resolve_aliases_trailing_comma :
  resolve_aliases
    {| plain_redirects := [mkRedirect "team" (Some "a@x.com,")];
       esp_users := [mkUser 1 "blank" "   " 0 []] |}
    ["team@site.learningu.org"; "blank@site.learningu.org"]
  = ["a@x.com"].
Proof. reflexivity. Qed.

(** C9. For every redirect record whose key matches the local part of an
    input alias, every comma-separated component of its destination that
    is an external address (non-empty once stripped, not ending in the
    internal suffix) is in the list [resolve_aliases] returns. *)
Theorem resolve_aliases_expands_destinations
    (db : Database) (aliases : list string)
    (x : PlainRedirect) (alias d component : string) :
  In x (plain_redirects db) ->
  In alias aliases ->
  lower (original x) = local_part alias ->
  destination x = Some d ->
  In component (split "," d) ->
  strip component <> EmptyString ->
  endswith (strip component) DOMAIN = false ->
  In (strip component) (resolve_aliases db aliases).
Proof.
  intros Hx Ha Hkey Hd Hc Hne Hext.
  assert (Hdne : d <> EmptyString).
  { intros ->. cbn in Hc. destruct Hc as [<-|[]]. now apply Hne. }
  unfold resolve_aliases. apply keep_external_intro; [|exact Hne|exact Hext].
  apply in_or_app. left. apply in_flat_map. exists x. split.
  - apply filter_In. split; [exact Hx|].
    unfold redirect_matches. rewrite Hd.
    apply andb_true_iff. split.
    + apply mem_In. rewrite Hkey. now apply in_map.
    + apply negb_true_iff. now apply String.eqb_neq.
  - unfold destinations_of. rewrite Hd.
    destruct d; [congruence | exact Hc].
Qed.

(** The redirect of the specification's example:
    ["a@x.com,b@y.com"] yields both addresses. *)
Lemma resolve_aliases_expands_destinations_witness :
  In "a@x.com" (resolve_aliases team_db ["team@site.learningu.org"])
  /\ In "b@y.com" (resolve_aliases team_db ["team@site.learningu.org"]).
Proof.
  split.
  - apply (resolve_aliases_expands_destinations
             team_db ["team@site.learningu.org"] team_redirect
             "team@site.learningu.org" "a@x.com,b@y.com" "a@x.com");
      try reflexivity; simpl; auto; discriminate.
  - apply (resolve_aliases_expands_destinations
             team_db ["team@site.learningu.org"] team_redirect
             "team@site.learningu.org" "a@x.com,b@y.com" "b@y.com");
      try reflexivity; simpl; auto; discriminate.
Defined.

(** *** [resolve_recipients] *)

Lemma filter_id {A : Type} (f : A -> bool) (l : list A) :
  Forall (fun a => f a = true) l -> filter f l = l.
Proof.
  induction 1 as [|a l Ha _ IH]; cbn [filter]; [reflexivity|].
  now rewrite Ha, IH.
Qed.

Lemma filter_none {A : Type} (f : A -> bool) (l : list A) :
  Forall (fun a => f a = false) l -> filter f l = [].
Proof.
  induction 1 as [|a l Ha _ IH]; cbn [filter]; [reflexivity|].
  now rewrite Ha.
Qed.

(** C8, as the code has it. [resolve_recipients] of the empty list is the
    empty list, and a list whose addresses all contain [@] and do not end
    in the domain suffix is returned unchanged. *)
Theorem resolve_recipients_identity
    (db : Database) (domain : string) (recipients : list string) :
  Forall (fun r => endswith r domain = false /\ contains "@" r = true)
         recipients ->
  resolve_recipients db [] domain = []
  /\ resolve_recipients db recipients domain = recipients.
Proof.
  intros H. split.
  - unfold resolve_recipients. cbn. apply resolve_aliases_nil.
  - unfold resolve_recipients. rewrite filter_recipients_filters.
    rewrite (filter_id (is_real domain)), (filter_none (is_alias domain)).
    + rewrite resolve_aliases_nil. apply app_nil_r.
    + eapply Forall_impl; [|exact H]. intros a [E _]. exact E.
    + eapply Forall_impl; [|exact H]. intros a [E1 E2].
      unfold is_real. now rewrite E1, E2.
Qed.

Lemma resolve_recipients_identity_witness :
  resolve_recipients team_db [] DOMAIN = []
  /\ resolve_recipients team_db
       ["a@gmail.com"; "b@yahoo.com"; "c@school.edu"] DOMAIN
     = ["a@gmail.com"; "b@yahoo.com"; "c@school.edu"].
Proof.
  apply (resolve_recipients_identity team_db DOMAIN
           ["a@gmail.com"; "b@yahoo.com"; "c@school.edu"]).
  repeat constructor.
Defined.

(** C8 as stated fails: an address without [@] does not end in the
    suffix, and is dropped. *)
Lemma resolve_recipients_not_identity :
  ~ (forall (db : Database) (recipients : list string),
        Forall (fun r => endswith r DOMAIN = false) recipients ->
        resolve_recipients db recipients DOMAIN = recipients).
Proof.
  intros H.
  specialize (H {| plain_redirects := []; esp_users := [] |}
                ["malformed-address"]).
  cbn in H. assert (F : Forall (fun r => endswith r DOMAIN = false)
                               ["malformed-address"]) by (repeat constructor).
  specialize (H F). discriminate H.
Qed.

(** C2 at ['site.learningu.org']: the address has no [@], and the code
    returns it among the aliases, without a warning. *)
Theorem filter_recipients_alias_without_at :
  contains "@" "site.learningu.org" = false
  /\ filter_recipients ["site.learningu.org"] DOMAIN
     = ([], ["site.learningu.org"], []).
Proof. split; reflexivity. Qed.

End RecipientFacts.

(* ------------------------------------------------------------------ *)
(** ** Sender parsing *)

Module SenderParseFacts.
Import PyStr PyStrFacts Mailgate MailgateProps.

Lemma all_space_lstrip (s : string) :
  all_space s = true -> lstrip s = EmptyString.
Proof.
  induction s as [|c s IH]; cbn [all_space lstrip]; [reflexivity|].
  intros H. apply andb_true_iff in H. destruct H as [Hc Hs].
  rewrite Hc. exact (IH Hs).
Qed.

Lemma all_space_no_comma (s : string) :
  all_space s = true -> contains "," s = false.
Proof.
  induction s as [|c s IH]; cbn [all_space contains]; [reflexivity|].
  intros H. apply andb_true_iff in H. destruct H as [Hc Hs].
  destruct (Ascii.eqb_spec c ",") as [->|_]; [discriminate Hc | exact (IH Hs)].
Qed.

(** The head of [split] when the text before the separator is known. *)
Lemma split_app_absent (sep : ascii) (a b : string) :
  contains sep a = false ->
  split sep (a ++ b) =
  match split sep b with
  | h :: t => (a ++ h)%string :: t
  | [] => [a]
  end.
Proof.
  induction a as [|c a IH]; cbn [String.append contains].
  - intros _. pose proof (split_not_nil sep b).
    destruct (split sep b); [congruence | reflexivity].
  - destruct (Ascii.eqb c sep) eqn:E; [discriminate|].
    intros H. cbn [split]. rewrite E, (IH H).
    now destruct (split sep b).
Qed.

(** On an input without comma that is not blank, the parser works on the
    stripped input. *)
Lemma parse_single (s : string) :
  contains "," s = false -> strip s <> EmptyString ->
  parse_sender_email (Some s) =
  let email_address := strip s in
  if contains "<" email_address && contains ">" email_address then
    (after <- index (split "<" email_address) 1 ;;
     inner <- index (split ">" after) 0 ;;
     Return (Some inner))
  else Return (Some email_address).
Proof.
  intros Hc Hs. unfold parse_sender_email.
  assert (Hne : truthy s = true).
  { destruct s; [|reflexivity]. now elim Hs. }
  rewrite Hne. cbn [negb]. rewrite (split_absent _ _ Hc).
  cbn [is_nil is_blank_single orb List.length Nat.eqb negb].
  apply truthy_true in Hs. rewrite Hs. reflexivity.
Qed.

Lemma parse_comma (s : string) :
  contains "," s = true ->
  parse_sender_email (Some s) = Raise more_than_one_sender.
Proof.
  intros Hc. unfold parse_sender_email.
  assert (Hne : truthy s = true) by (destruct s; [discriminate|reflexivity]).
  rewrite Hne. cbn [negb].
  pose proof (split_length_present _ _ Hc) as L.
  destruct (split "," s) as [|a [|b l]]; cbn in L; try lia.
  reflexivity.
Qed.

(** [split('<')[1].split('>')[0]] takes the text after the first [<] up
    to the next [<] or [>]. *)
Lemma bracket_extract (pre mid rest : string) :
  contains "<" pre = false ->
  contains "<" mid = false -> contains ">" mid = false ->
  (rest = EmptyString
   \/ exists r, rest = String "<" r \/ rest = String ">" r) ->
  (after <- index (split "<" (pre ++ String "<" (mid ++ rest))) 1 ;;
   inner <- index (split ">" after) 0 ;;
   Return (Some inner)) = Return (Some mid).
Proof.
  intros Hpre Hm1 Hm2 Hrest.
  rewrite (split_first _ _ _ Hpre).
  destruct Hrest as [-> | [r [-> | ->]]].
  - rewrite append_empty_r. rewrite (split_absent _ _ Hm1).
    cbn [index nth_error bind]. now rewrite (split_absent _ _ Hm2).
  - rewrite (split_first _ _ _ Hm1). cbn [index nth_error bind].
    now rewrite (split_absent _ _ Hm2).
  - rewrite (split_app_absent _ _ _ Hm1). cbn [split].
    change (Ascii.eqb ">" "<") with false. cbv iota.
    pose proof (split_not_nil "<" r) as N.
    destruct (split "<" r) as [|h t]; [congruence|].
    cbn [index nth_error bind String.append].
    now rewrite (split_first _ _ _ Hm2).
Qed.

(** C3, as the code has it.  The parser returns no sender for [None], for
    the empty string and for a string of white space only; it raises
    exactly when the (non-empty) input contains a comma, that is when the
    comma split yields more than one token, empty or not; otherwise it
    works on the stripped input: without both [<] and [>] it returns it,
    and with both it returns the text after the first [<] up to the next
    [<] or [>] (or the end). *)
Theorem parse_sender_email_cases :
  parse_sender_email None = Return None
  /\ parse_sender_email (Some EmptyString) = Return None
  /\ (forall s, all_space s = true -> parse_sender_email (Some s) = Return None)
  /\ (forall s, (exists e, parse_sender_email (Some s) = Raise e)
                <-> 1 < List.length (split "," s))
  /\ (forall s, 1 < List.length (split "," s) ->
                parse_sender_email (Some s) = Raise more_than_one_sender)
  /\ (forall s, List.length (split "," s) = 1 -> strip s <> EmptyString ->
                contains "<" (strip s) && contains ">" (strip s) = false ->
                parse_sender_email (Some s) = Return (Some (strip s)))
  /\ (forall s pre mid rest,
         List.length (split "," s) = 1 ->
         strip s = (pre ++ String "<" (mid ++ rest))%string ->
         contains ">" (strip s) = true ->
         contains "<" pre = false ->
         contains "<" mid = false -> contains ">" mid = false ->
         (rest = EmptyString
          \/ exists r, rest = String "<" r \/ rest = String ">" r) ->
         parse_sender_email (Some s) = Return (Some mid)).
Proof.
  assert (Hraise : forall s, 1 < List.length (split "," s) ->
                     parse_sender_email (Some s) = Raise more_than_one_sender).
  { intros s H. apply parse_comma.
    destruct (contains "," s) eqn:E; [reflexivity|].
    rewrite (split_absent _ _ E) in H. cbn in H. lia. }
  assert (Hblank : forall s, contains "," s = false -> strip s = EmptyString ->
                     parse_sender_email (Some s) = Return None).
  { intros s Hc Hs. unfold parse_sender_email.
    destruct (truthy s); [|reflexivity]. cbn [negb].
    rewrite (split_absent _ _ Hc). cbn [is_nil is_blank_single orb].
    now rewrite Hs. }
  repeat split.
  - intros s H. apply Hblank; [now apply all_space_no_comma|].
    unfold strip. now rewrite (all_space_lstrip _ H).
  - intros [e He].
    destruct (contains "," s) eqn:E; [now apply split_length_present|].
    exfalso. destruct (string_dec (strip s) EmptyString) as [Hs|Hs].
    + rewrite (Hblank s E Hs) in He. discriminate.
    + rewrite (parse_single s E Hs) in He. cbv zeta in He.
      destruct (contains "<" (strip s)) eqn:Hlt; cbn [andb] in He;
        [|discriminate].
      destruct (contains ">" (strip s)) eqn:Hgt; [|discriminate].
      pose proof (split_length_present _ _ Hlt) as L.
      destruct (split "<" (strip s)) as [|a [|b l]]; cbn in L; try lia.
      cbn [index nth_error bind] in He.
      pose proof (split_not_nil ">" b) as N.
      destruct (split ">" b); [congruence|]. discriminate.
  - intros H. exists more_than_one_sender. now apply Hraise.
  - exact Hraise.
  - intros s L Hs Hb. apply split_single_iff in L.
    rewrite (parse_single s L Hs). cbv zeta. now rewrite Hb.
  - intros s pre mid rest L Hs Hgt Hpre Hm1 Hm2 Hrest.
    apply split_single_iff in L.
    assert (Hne : strip s <> EmptyString).
    { rewrite Hs. now destruct pre. }
    rewrite (parse_single s L Hne). cbv zeta. rewrite Hgt.
    assert (Hlt : contains "<" (strip s) = true).
    { rewrite Hs, contains_app. cbn [contains].
      rewrite Ascii.eqb_refl. apply orb_true_r. }
    rewrite Hlt. cbn [andb]. rewrite Hs.
    now apply bracket_extract.
Qed.

(** The examples of the specification, through the theorem above. *)
Lemma parse_sender_email_cases_witness :
  parse_sender_email (Some "   ") = Return None
  /\ parse_sender_email (Some "a@b.com,c@d.com") = Raise more_than_one_sender
  /\ parse_sender_email (Some "  user@example.com  ")
     = Return (Some "user@example.com")
  /\ parse_sender_email (Some "A <a@b.com>") = Return (Some "a@b.com").
Proof.
  destruct parse_sender_email_cases as (_ & _ & Hws & _ & Hraise & Hplain & Hbr).
  split; [|split; [|split]].
  - apply Hws. reflexivity.
  - apply Hraise. cbn. lia.
  - apply (Hplain "  user@example.com  "); [reflexivity | discriminate | reflexivity].
  - apply (Hbr "A <a@b.com>" "A " "a@b.com" ">"); try reflexivity.
    right. exists EmptyString. now right.
Defined.

(** C3 as stated fails twice.  ["a@b.com,"] has one non-empty candidate
    and the parser raises; in ["a<b<c>d"] the substring between the first
    [<] and the first [>] is ["b<c"] and the parser returns ["b"]. *)
Lemma parse_sender_email_not_as_stated :
  (spec_nonempty_candidates "a@b.com," = ["a@b.com"]
   /\ parse_sender_email (Some "a@b.com,") = Raise more_than_one_sender)
  /\ (spec_between_brackets "a<b<c>d" = "b<c"
      /\ parse_sender_email (Some "a<b<c>d") = Return (Some "b")).
Proof. repeat split. Qed.

End SenderParseFacts.

(* ------------------------------------------------------------------ *)
(** ** Sender lookup *)

Module SenderLookupFacts.
Import PyStr PyStrFacts Mailgate MailgateProps.

Local Open Scope Z_scope.

#[local] Hint Constructors by_date : core.

Lemma insert_by_date_In (u x : ESPUser) (l : list ESPUser) :
  In x (insert_by_date u l) <-> x = u \/ In x l.
Proof.
  induction l as [|v l IH]; cbn [insert_by_date].
  - cbn. intuition congruence.
  - destruct (date_joined u <=? date_joined v); cbn [In].
    + intuition congruence.
    + rewrite IH. intuition congruence.
Qed.

Lemma order_by_date_joined_In (x : ESPUser) (l : list ESPUser) :
  In x (order_by_date_joined l) <-> In x l.
Proof.
  induction l as [|u l IH]; cbn [order_by_date_joined In]; [tauto|].
  rewrite insert_by_date_In, IH. intuition congruence.
Qed.

Lemma insert_by_date_length (u : ESPUser) (l : list ESPUser) :
  List.length (insert_by_date u l) = S (List.length l).
Proof.
  induction l as [|v l IH]; cbn [insert_by_date]; [reflexivity|].
  destruct (date_joined u <=? date_joined v); cbn [List.length]; congruence.
Qed.

Lemma order_by_date_joined_length (l : list ESPUser) :
  List.length (order_by_date_joined l) = List.length l.
Proof.
  induction l as [|u l IH]; cbn [order_by_date_joined]; [reflexivity|].
  rewrite insert_by_date_length. cbn. congruence.
Qed.

Lemma insert_by_date_sorted (u : ESPUser) (l : list ESPUser) :
  by_date l -> by_date (insert_by_date u l).
Proof.
  induction 1 as [|v l Hv Hl IH]; cbn [insert_by_date].
  - auto.
  - destruct (Z.leb_spec (date_joined u) (date_joined v)) as [Le|Gt].
    + constructor; [|auto]. constructor; [exact Le|].
      eapply Forall_impl; [|exact Hv]. unfold older. intros; lia.
    + constructor; [|exact IH].
      apply Forall_forall. intros x Hx. apply insert_by_date_In in Hx.
      destruct Hx as [->|Hx]; [unfold older; lia|].
      rewrite Forall_forall in Hv. now apply Hv.
Qed.

Lemma order_by_date_joined_sorted (l : list ESPUser) :
  by_date (order_by_date_joined l).
Proof.
  induction l as [|u l IH]; cbn [order_by_date_joined]; [auto|].
  now apply insert_by_date_sorted.
Qed.


Lemma filter_nil_iff {A : Type} (f : A -> bool) (l : list A) :
  filter f l = [] <-> forall x, In x l -> f x = false.
Proof.
  induction l as [|a l IH]; cbn [filter In]; [tauto|].
  destruct (f a) eqn:Fa.
  - split; [discriminate|]. intros H. specialize (H a (or_introl eq_refl)).
    congruence.
  - rewrite IH. split; [|now auto].
    intros H x [<-|Hx]; auto.
Qed.

Section Priority.

Variable users : list ESPUser.



End Priority.

Lemma candidates_matching (db : Database)
    (email_address email_host_sender : string) (u : ESPUser) :
  In u (candidates db email_address email_host_sender)
  <-> matching db email_address email_host_sender u.
Proof.
  unfold candidates, matching.
  rewrite order_by_date_joined_In, filter_In. tauto.
Qed.




End SenderLookupFacts.

(* ------------------------------------------------------------------ *)
(** ** Body rendering *)

Module BodyFacts.
Import PyStr PyStrFacts Mailgate MailgateProps.

Lemma replace_absent (c old : ascii) (new s : string) :
  contains c new = false -> contains c s = false ->
  contains c (replace old new s) = false.
Proof.
  intros Hn. induction s as [|a s IH]; cbn [replace contains]; [reflexivity|].
  destruct (Ascii.eqb a c) eqn:E; [discriminate|]. intros Hs.
  destruct (Ascii.eqb a old).
  - rewrite contains_app, Hn. now apply IH.
  - cbn [contains]. rewrite E. now apply IH.
Qed.

Lemma replace_removes (old : ascii) (new s : string) :
  contains old new = false -> contains old (replace old new s) = false.
Proof.
  intros Hn. induction s as [|a s IH]; cbn [replace]; [reflexivity|].
  destruct (Ascii.eqb a old) eqn:E.
  - now rewrite contains_app, Hn.
  - cbn [contains]. now rewrite E.
Qed.

(** Escaped text has no [<], [>] or quote left. *)
Lemma html_escape_no_markup (s : string) :
  contains "<" (html_escape s) = false
  /\ contains ">" (html_escape s) = false
  /\ contains (ascii_of_nat 34) (html_escape s) = false
  /\ contains "'" (html_escape s) = false.
Proof.
  unfold html_escape. repeat split.
  - do 3 (apply replace_absent; [reflexivity|]). now apply replace_removes.
  - do 2 (apply replace_absent; [reflexivity|]). now apply replace_removes.
  - apply replace_absent; [reflexivity|]. now apply replace_removes.
  - now apply replace_removes.
Qed.

(** Whatever the message, a body that is built is the content inside the
    fixed skeleton. *)
Lemma build_email_body_skeleton (message : Message) (body : string) :
  build_email_body message = Return body ->
  exists content,
    get_content (get_body message) = Return content
    /\ (body = skeleton_prefix ++ content ++ skeleton_suffix
        \/ body = skeleton_prefix ++ html_escape content ++ skeleton_suffix)%string.
Proof.
  unfold build_email_body.
  destruct (get_content (get_body message)) as [content|e]; cbn [bind];
    [|discriminate].
  intros [= <-]. exists content. split; [reflexivity|].
  destruct (negb _); [now right | now left].
Qed.

(** A message that is a single text part is escaped exactly when its
    subtype is not [html]. *)
Lemma build_email_body_single_part (subtype content : string) :
  preference subtype <> None ->
  build_email_body (Leaf "text" subtype false content) =
  Return (skeleton_prefix
          ++ (if String.eqb subtype "html" then content
              else html_escape content)
          ++ skeleton_suffix)%string.
Proof.
  intros Hp. unfold build_email_body, get_body. cbn [find_body].
  change (String.eqb "text" "text") with true. cbv iota.
  unfold preference in *.
  destruct (String.eqb_spec subtype "html") as [->|Hh].
  - reflexivity.
  - destruct (String.eqb_spec subtype "plain") as [->|Hpl]; [|congruence].
    reflexivity.
Qed.

(** C7 at a multipart/alternative message: the preferred representation
    is the HTML part, and the body built has it escaped, because the
    content type tested is the one of the whole message. *)
Theorem build_email_body_escapes_html_part :
  get_body html_alternative
    = Some (Leaf "text" "html" false "<p>Hello <b>world</b></p>")
  /\ get_content_type html_alternative = "multipart/alternative"
  /\ build_email_body html_alternative
     = Return (skeleton_prefix
               ++ "&lt;p&gt;Hello &lt;b&gt;world&lt;/b&gt;&lt;/p&gt;"
               ++ skeleton_suffix)%string.
Proof. repeat split. Qed.

End BodyFacts.

(* ------------------------------------------------------------------ *)
(** ** The migration *)

Module MigrationFacts.
Import Migration0047 MigrationProps.

Lemma is_adminmorph_true (m : ProgramModule) :
  is_adminmorph m = true <-> handler m = "AdminMorph".
Proof. unfold is_adminmorph. apply String.eqb_eq. Qed.

Lemma linked_true (db : Database) (pid : Z) (m : ProgramModule) :
  linked db pid m = true <-> In (pid, pm_id m) (links db).
Proof.
  unfold linked. rewrite existsb_exists. split.
  - intros ([p i] & Hin & E). cbn [fst snd] in E.
    apply andb_true_iff in E. destruct E as [E1 E2].
    apply Z.eqb_eq in E1. apply Nat.eqb_eq in E2. now subst.
  - intros H. exists (pid, pm_id m). split; [exact H|]. cbn [fst snd].
    now rewrite Z.eqb_refl, Nat.eqb_refl.
Qed.

Lemma set_add_In (x pid : Z) (seen : list Z) :
  In x (set_add pid seen) <-> In x seen \/ x = pid.
Proof.
  unfold set_add. destruct (existsb (Z.eqb pid) seen) eqn:E.
  - split; [now left|]. intros [H| ->]; [exact H|].
    apply existsb_exists in E. destruct E as (y & Hy & Ey).
    apply Z.eqb_eq in Ey. now subst.
  - rewrite in_app_iff. cbn [In]. intuition congruence.
Qed.

Lemma add_all_In (x : Z) (pids seen : list Z) :
  In x (fold_left (fun s pid => set_add pid s) pids seen)
  <-> In x seen \/ In x pids.
Proof.
  revert seen. induction pids as [|p pids IH]; intros seen; cbn [fold_left In].
  - tauto.
  - rewrite IH, set_add_In. intuition congruence.
Qed.

Lemma collect_from_In (db : Database) (x : Z) (qs : list ProgramModule)
    (seen : list Z) :
  In x (fold_left
          (fun seen am_module => fold_left (fun s pid => set_add pid s)
                                           (programs_with db am_module) seen)
          qs seen)
  <-> In x seen \/ exists m, In m qs /\ In x (programs_with db m).
Proof.
  revert seen. induction qs as [|m qs IH]; intros seen; cbn [fold_left].
  - split; [now left|]. intros [H|(m & [] & _)]. exact H.
  - rewrite IH, add_all_In. split.
    + intros [[H|H]|(m' & Hm' & H)]; [now left | right | right].
      * exists m. split; [now left | exact H].
      * exists m'. split; [now right | exact H].
    + intros [H|(m' & [<-|Hm'] & H)]; [now left; left | now left; right|].
      right. now exists m'.
Qed.

(** The collected ids are the programs of the affected associations. *)
Lemma collect_ids_In (db : Database) (pid : Z) :
  In pid (collect_ids db) <-> exists m, association db pid m.
Proof.
  unfold collect_ids. rewrite collect_from_In. cbn [In].
  unfold association, adminmorph_qs, programs_with. split.
  - intros [ [] | (m & Hm & Hp) ]. exists m.
    apply filter_In in Hm. apply filter_In in Hp.
    rewrite is_adminmorph_true in Hm. rewrite linked_true in Hp. tauto.
  - intros (m & H1 & H2 & H3 & H4). right. exists m.
    rewrite !filter_In, is_adminmorph_true, linked_true. tauto.
Qed.

Lemma insert_sorted_In (x y : Z) (l : list Z) :
  In y (insert_sorted x l) <-> y = x \/ In y l.
Proof.
  induction l as [|z l IH]; cbn [insert_sorted].
  - cbn. intuition congruence.
  - destruct (x <=? z)%Z; cbn [In]; [|rewrite IH]; intuition congruence.
Qed.

Lemma sorted_In (y : Z) (l : list Z) : In y (sorted l) <-> In y l.
Proof.
  unfold sorted. induction l as [|x l IH]; cbn [fold_right In]; [tauto|].
  rewrite insert_sorted_In, IH. intuition congruence.
Qed.

(** [if ids:] holds exactly when an association exists. *)
Lemma ids_nonempty_iff (db : Database) :
  nonempty (sorted (collect_ids db)) = true
  <-> exists pid m, association db pid m.
Proof.
  split.
  - destruct (sorted (collect_ids db)) as [|pid l] eqn:E; [discriminate|].
    intros _. exists pid. apply collect_ids_In, sorted_In.
    rewrite E. now left.
  - intros (pid & Hm). apply collect_ids_In, sorted_In in Hm.
    destruct (sorted (collect_ids db)); [destruct Hm | reflexivity].
Qed.

(** After the deletion no registry row has the handler, and the other
    rows are all there. *)
Lemma delete_adminmorph_rows (db : Database) (m : ProgramModule) :
  In m (program_modules (delete_adminmorph db))
  <-> In m (program_modules db) /\ handler m <> "AdminMorph".
Proof.
  unfold delete_adminmorph. cbn [program_modules].
  rewrite filter_In, negb_true_iff. unfold is_adminmorph.
  now rewrite String.eqb_neq.
Qed.

(** C5. The forward migration raises the [OSError], leaving the database
    as it was, when the state file cannot be written and at least one
    affected association exists; when the write succeeds, or when it fails
    and no association exists, it deletes the registry rows. *)
Theorem forward_migration_write_failure (db : Database) (fs : FileSystem) :
  (read_only fs = true -> (exists pid m, association db pid m) ->
   remove_adminmorph_programmodule db fs = Raised OSError db fs)
  /\ (read_only fs = false \/ ~ (exists pid m, association db pid m) ->
      exists fs',
        remove_adminmorph_programmodule db fs = Done (delete_adminmorph db) fs'
        /\ forall m, In m (program_modules (delete_adminmorph db)) <->
                     In m (program_modules db) /\ handler m <> "AdminMorph").
Proof.
  unfold remove_adminmorph_programmodule, write_state. split.
  - intros Hro Ha. rewrite Hro.
    apply ids_nonempty_iff in Ha. now rewrite Ha.
  - intros H. destruct (read_only fs) eqn:Hro.
    + destruct H as [H|H]; [discriminate|].
      destruct (nonempty (sorted (collect_ids db))) eqn:E.
      * apply ids_nonempty_iff in E. contradiction.
      * exists fs. split; [reflexivity | apply delete_adminmorph_rows].
    + eexists. split; [reflexivity | apply delete_adminmorph_rows].
Qed.

(** With programs 1 and 3 installed: a locked directory aborts the
    migration, a writable one records [[1; 3]] and deletes. *)
Lemma forward_migration_write_failure_witness :
  remove_adminmorph_programmodule installed locked
    = Raised OSError installed locked
  /\ exists fs',
       remove_adminmorph_programmodule installed writable
       = Done (delete_adminmorph installed) fs'.
Proof.
  split.
  - apply (proj1 (forward_migration_write_failure installed locked));
      [reflexivity|].
    exists 3%Z, morph_row. unfold association. cbn. tauto.
  - destruct (proj2 (forward_migration_write_failure installed writable))
      as (fs' & E & _); [now left|].
    now exists fs'.
Defined.

Example forward_migration_state_written :
  remove_adminmorph_programmodule installed writable
  = Done {| program_modules := [other_row]; programs := [3; 1]%Z;
            links := [(3%Z, 8)] |}
         {| state_file :=
              Some (Json (JObject [("program_ids", JArray [JInt 1; JInt 3])]));
            read_only := false |}.
Proof. reflexivity. Qed.

Lemma restore_links_nil (db : Database) (am : ProgramModule) :
  restore_links db am [] = db.
Proof.
  unfold restore_links. cbn [existsb].
  assert (E : filter (fun _ : Z => false) (programs db) = []).
  { induction (programs db) as [|p l IH]; [reflexivity | exact IH]. }
  rewrite E. now destruct db.
Qed.

Lemma get_or_create_cases (db : Database) :
  (exists am db1,
      get_or_create db = inl (am, db1)
      /\ (List.length (adminmorph_qs db) <= 1)%nat
      /\ In am (program_modules db1) /\ handler am = "AdminMorph"
      /\ programs db1 = programs db /\ links db1 = links db)
  \/ (get_or_create db = inr MultipleObjectsReturned
      /\ (2 <= List.length (adminmorph_qs db))%nat).
Proof.
  unfold get_or_create.
  destruct (adminmorph_qs db) as [|am [|am' l]] eqn:E.
  - left. eexists _, _. split; [reflexivity|]. cbn.
    repeat split; [lia|]. apply in_or_app. right. now left.
  - left. exists am, db. split; [reflexivity|]. cbn.
    assert (H : In am (adminmorph_qs db)) by (rewrite E; now left).
    apply filter_In in H. rewrite is_adminmorph_true in H.
    repeat split; [lia | tauto | tauto].
  - right. split; [reflexivity | cbn; lia].
Qed.

Lemma next_pm_id_above (db : Database) (m : ProgramModule) :
  In m (program_modules db) -> (pm_id m < next_pm_id db)%nat.
Proof.
  unfold next_pm_id. induction (program_modules db) as [|a l IH];
    [intros []|].
  cbn [map fold_right]. intros [<-|H]; [lia|]. specialize (IH H). lia.
Qed.

(** On at most one AdminMorph row, [get_or_create] returns the row there
    is, or appends one with the default fields under a fresh key. *)
Lemma get_or_create_outcome (db : Database) :
  (List.length (adminmorph_qs db) <= 1)%nat ->
  exists am db1,
    get_or_create db = inl (am, db1)
    /\ adminmorph_qs db1 = [am]
    /\ ((adminmorph_qs db = [am] /\ program_modules db1 = program_modules db)
        \/ (adminmorph_qs db = []
            /\ am = adminmorph_defaults (pm_id am)
            /\ (forall m, In m (program_modules db) -> pm_id m <> pm_id am)
            /\ program_modules db1 = program_modules db ++ [am]))
    /\ links db1 = links db /\ programs db1 = programs db.
Proof.
  intros Hlen. unfold get_or_create.
  destruct (adminmorph_qs db) as [|am [|am' l]] eqn:E; [| |cbn in Hlen; lia].
  - eexists _, _. split; [reflexivity|].
    unfold adminmorph_qs in *. cbn [program_modules links programs].
    rewrite filter_app, E. cbn [filter is_adminmorph adminmorph_defaults handler].
    split; [reflexivity|]. split; [|now split].
    right. split; [reflexivity|]. split; [reflexivity|]. split; [|reflexivity].
    intros m Hm. apply next_pm_id_above in Hm.
    cbn [adminmorph_defaults pm_id]. lia.
  - exists am, db. split; [reflexivity|]. split; [exact E|].
    split; [|now split]. left. now split.
Qed.

(** C6, as the code has it.  With the state file missing, or holding text
    that [json.load] rejects with a [ValueError], the reverse migration
    does not fail on the file: it ends with exactly one AdminMorph row in
    the registry (the row that was there, or a new one with the default
    fields under a fresh key), with the programs and the associations as
    they were (none restored); the only exception it can end with is that
    of [get_or_create] on duplicate registry rows. *)
Theorem reverse_migration_tolerates_state_file
    (coerce_ids : json -> list Z + exn) (db : Database) (fs : FileSystem) :
  state_file fs = None \/ (exists raw, state_file fs = Some (NotJson raw)) ->
  ((List.length (adminmorph_qs db) <= 1)%nat ->
   exists db' am,
     restore_adminmorph_programmodule coerce_ids db fs
     = Done db' (remove_state_file fs)
     /\ adminmorph_qs db' = [am]
     /\ ((adminmorph_qs db = [am] /\ program_modules db' = program_modules db)
         \/ (adminmorph_qs db = []
             /\ am = adminmorph_defaults (pm_id am)
             /\ (forall m, In m (program_modules db) -> pm_id m <> pm_id am)
             /\ program_modules db' = program_modules db ++ [am]))
     /\ links db' = links db /\ programs db' = programs db)
  /\ (forall e db' fs',
         restore_adminmorph_programmodule coerce_ids db fs = Raised e db' fs' ->
         e = MultipleObjectsReturned
         /\ (2 <= List.length (adminmorph_qs db))%nat).
Proof.
  intros Hfile.
  assert (Hread : read_state fs = inl (JArray [])).
  { unfold read_state. destruct Hfile as [-> | [raw ->]]; reflexivity. }
  unfold restore_adminmorph_programmodule. split.
  - intros Hlen.
    destruct (get_or_create_outcome db Hlen)
      as (am & db1 & -> & Hq & Hrow & Hl & Hp).
    rewrite Hread. cbn [ids_of_json ints_of]. rewrite restore_links_nil.
    exists db1, am. split; [reflexivity|]. split; [exact Hq|].
    split; [exact Hrow | now split].
  - destruct (get_or_create_cases db)
      as [(am & db1 & -> & _) | [-> Hlen]].
    + rewrite Hread. cbn [ids_of_json ints_of]. discriminate.
    + intros e db' fs' [= <- _ _]. now split.
Qed.

(** A garbled state file: one AdminMorph row is back, with the default
    fields, and no link is. *)
Lemma reverse_migration_tolerates_state_file_witness :
  exists db' am,
    restore_adminmorph_programmodule refuse_ids migrated garbled
      = Done db' (remove_state_file garbled)
    /\ adminmorph_qs db' = [am]
    /\ am = adminmorph_defaults (pm_id am)
    /\ links db' = links migrated.
Proof.
  destruct (reverse_migration_tolerates_state_file refuse_ids migrated garbled)
    as [H _].
  - right. now exists "{program_ids".
  - destruct H as (db' & am & E & Q & Hrow & L & _); [cbn; lia|].
    exists db', am. split; [exact E|]. split; [exact Q|]. split; [|exact L].
    destruct Hrow as [[Habs _] | (_ & D & _)]; [discriminate Habs | exact D].
Defined.

(** C6 as stated fails: five thousand opening brackets are not JSON, the
    [RecursionError] that [json.load] raises on them is not caught, and
    the migration ends with it, the registry row already created. *)
Lemma reverse_migration_fails_on_deep_file :
  restore_adminmorph_programmodule refuse_ids migrated deep_file
  = Raised RecursionError
      {| program_modules := [other_row; adminmorph_defaults 9];
         programs := [3; 1]%Z; links := [(3%Z, 8)] |}
      deep_file.
Proof. reflexivity. Qed.

Example reverse_migration_garbled (coerce_ids : json -> list Z + exn) :
  restore_adminmorph_programmodule coerce_ids migrated garbled
  = Done {| program_modules := [other_row; adminmorph_defaults 9];
            programs := [3; 1]%Z; links := [(3%Z, 8)] |}
         {| state_file := None; read_only := false |}.
Proof. reflexivity. Qed.

Example reverse_migration_restores (coerce_ids : json -> list Z + exn) :
  restore_adminmorph_programmodule coerce_ids migrated
    {| state_file :=
         Some (Json (JObject [("program_ids", JArray [JInt 1; JInt 3])]));
       read_only := false |}
  = Done {| program_modules := [other_row; adminmorph_defaults 9];
            programs := [3; 1]%Z; links := [(3%Z, 8); (3%Z, 9); (1%Z, 9)] |}
         {| state_file := None; read_only := false |}.
Proof. reflexivity. Qed.

End MigrationFacts.

(* ------------------------------------------------------------------ *)
(** ** More on recipient filtering and alias resolution *)

Module RecipientMore.
Import PyStr PyStrFacts Mailgate MailgateProps RecipientFacts MoreProps.

Lemma keep_external_app (a b : list string) :
  keep_external (a ++ b) = keep_external a ++ keep_external b.
Proof.
  induction a as [|x a IH]; cbn [app keep_external]; [reflexivity|].
  destruct (truthy (strip x) && negb (endswith (strip x) DOMAIN));
    cbn [app]; now rewrite IH.
Qed.

Lemma mem_ext (l1 l2 : list string) :
  (forall p, In p l1 <-> In p l2) -> forall x, mem x l1 = mem x l2.
Proof.
  intros H x.
  destruct (mem x l1) eqn:E1, (mem x l2) eqn:E2; try reflexivity.
  - apply mem_In, H, mem_In in E1. congruence.
  - apply mem_In, H, mem_In in E2. congruence.
Qed.

Lemma three_way_count (domain : string) (l : list string) :
  List.length (filter (is_real domain) l)
  + List.length (filter (is_alias domain) l)
  + List.length (filter (is_dropped domain) l) = List.length l.
Proof.
  induction l as [|r l IH]; cbn [filter List.length]; [reflexivity|].
  unfold is_real, is_alias, is_dropped in *.
  destruct (endswith r domain), (contains "@" r); cbn [negb andb List.length];
    lia.
Qed.

(** X1. [filter_recipients] accounts for every input address once: the
    sizes of the two outputs and of the warning log add up to the size of
    the input; every alias ends with the suffix, every real recipient
    contains [@] and does not end with it, and every warning is about an
    input address that has no [@] and does not end with the suffix. *)
Theorem filter_recipients_accounting
    (recipients : list string) (domain : string) :
  let out := filter_recipients recipients domain in
  List.length (fst (fst out)) + List.length (snd (fst out))
  + List.length (snd out) = List.length recipients
  /\ Forall (fun r => endswith r domain = true) (snd (fst out))
  /\ Forall (fun r => endswith r domain = false /\ contains "@" r = true)
            (fst (fst out))
  /\ Forall (fun w => exists r, In r recipients
                                /\ endswith r domain = false
                                /\ contains "@" r = false
                                /\ w = no_at_warning r)
            (snd out).
Proof.
  cbv zeta. rewrite filter_recipients_filters. cbn [fst snd].
  split; [|split; [|split]].
  - rewrite length_map. apply three_way_count.
  - apply Forall_forall. intros r H. apply filter_In in H. now destruct H.
  - apply Forall_forall. intros r H. apply filter_In in H.
    destruct H as [_ H]. unfold is_real in H.
    apply andb_true_iff in H. destruct H as [H1 H2].
    now apply negb_true_iff in H1.
  - apply Forall_forall. intros w H. apply in_map_iff in H.
    destruct H as (r & <- & H). apply filter_In in H.
    destruct H as [Hin H]. unfold is_dropped in H.
    apply andb_true_iff in H. destruct H as [H1 H2].
    apply negb_true_iff in H1. apply negb_true_iff in H2.
    now exists r.
Qed.

(** X2. [filter_recipients] classifies each address on its own and keeps
    the input order: on a concatenation it returns the concatenation of
    the real recipients, of the aliases and of the warnings of the two
    halves. *)
Theorem filter_recipients_app (a b : list string) (domain : string) :
  filter_recipients (a ++ b) domain =
  (fst (fst (filter_recipients a domain))
     ++ fst (fst (filter_recipients b domain)),
   snd (fst (filter_recipients a domain))
     ++ snd (fst (filter_recipients b domain)),
   snd (filter_recipients a domain) ++ snd (filter_recipients b domain)).
Proof.
  rewrite !filter_recipients_filters. cbn [fst snd].
  now rewrite !filter_app, map_app.
Qed.

(** X3. [resolve_aliases] depends on the aliases only through the set of
    their lower-cased local parts: the part after [@], the letter case,
    the order and the repetitions of the aliases do not change the
    result. *)
Theorem resolve_aliases_local_parts
    (db : Database) (aliases aliases' : list string) :
  (forall p, In p (map local_part aliases) <-> In p (map local_part aliases')) ->
  resolve_aliases db aliases = resolve_aliases db aliases'.
Proof.
  intros H. unfold resolve_aliases.
  pose proof (mem_ext _ _ H) as M.
  assert (R : filter (redirect_matches (map local_part aliases))
                     (plain_redirects db)
              = filter (redirect_matches (map local_part aliases'))
                       (plain_redirects db)).
  { apply filter_ext. intros x. unfold redirect_matches. now rewrite M. }
  assert (U : filter (user_matches (map local_part aliases)) (esp_users db)
              = filter (user_matches (map local_part aliases')) (esp_users db)).
  { apply filter_ext. intros x. unfold user_matches. now rewrite M. }
  now rewrite R, U.
Qed.

Lemma resolve_aliases_local_parts_witness :
  resolve_aliases mixed_db
    ["JSMITH@one.learningu.org"; "Team@x.learningu.org";
     "team@y.learningu.org"]
  = resolve_aliases mixed_db
      ["team@site.learningu.org"; "jsmith@site.learningu.org"].
Proof.
  apply resolve_aliases_local_parts. intros p. cbn. tauto.
Defined.

(** X4. An address is in the result of [resolve_aliases] exactly when it
    is non-empty, does not end with the internal suffix, and is the
    stripped form of a comma-separated component of the destination of a
    redirect whose lower-cased key is the local part of an alias, or the
    stripped email of a user whose lower-cased username is one. *)
Theorem resolve_aliases_membership
    (db : Database) (aliases : list string) (a : string) :
  In a (resolve_aliases db aliases) <->
  a <> EmptyString /\ endswith a DOMAIN = false
  /\ ((exists x d component,
          In x (plain_redirects db)
          /\ In (lower (original x)) (map local_part aliases)
          /\ destination x = Some d
          /\ In component (split "," d) /\ a = strip component)
      \/ (exists u,
             In u (esp_users db)
             /\ In (lower (username u)) (map local_part aliases)
             /\ a = strip (email u))).
Proof.
  unfold resolve_aliases. split.
  - intros H. apply keep_external_inv in H.
    destruct H as (y & Hy & -> & Hne & Hext).
    split; [exact Hne|]. split; [exact Hext|].
    apply in_app_or in Hy. destruct Hy as [Hy|Hy].
    + left. apply in_flat_map in Hy. destruct Hy as (x & Hx & Hc).
      apply filter_In in Hx. destruct Hx as [Hx Hm].
      unfold redirect_matches in Hm. apply andb_true_iff in Hm.
      destruct Hm as [Hm _]. apply mem_In in Hm.
      unfold destinations_of in Hc.
      destruct (destination x) as [d|] eqn:Ed; [|destruct Hc].
      destruct (truthy d); [|destruct Hc].
      now exists x, d, y.
    + right. apply in_map_iff in Hy. destruct Hy as (u & <- & Hu).
      apply filter_In in Hu. destruct Hu as [Hu Hm].
      apply mem_In in Hm. now exists u.
  - intros (Hne & Hext & [(x & d & c & Hx & Hm & Hd & Hc & ->) | (u & Hu & Hm & ->)]).
    + apply keep_external_intro; [|exact Hne|exact Hext].
      apply in_or_app. left. apply in_flat_map. exists x.
      assert (Hdne : d <> EmptyString).
      { intros ->. cbn in Hc. destruct Hc as [<-|[]]. now apply Hne. }
      split.
      * apply filter_In. split; [exact Hx|]. unfold redirect_matches.
        rewrite Hd. apply andb_true_iff. split; [now apply mem_In|].
        apply negb_true_iff. now apply String.eqb_neq.
      * unfold destinations_of. rewrite Hd.
        destruct d; [congruence | exact Hc].
    + apply keep_external_intro; [|exact Hne|exact Hext].
      apply in_or_app. right. apply in_map_iff. exists u.
      split; [reflexivity|]. apply filter_In. split; [exact Hu|].
      now apply mem_In.
Qed.

(** X5. The result of [resolve_aliases] is what the redirects alone
    resolve to, followed by what the users alone resolve to. *)
Theorem resolve_aliases_redirects_then_users
    (db : Database) (aliases : list string) :
  resolve_aliases db aliases =
  resolve_aliases (redirects_only db) aliases
  ++ resolve_aliases (users_only db) aliases.
Proof.
  unfold resolve_aliases, redirects_only, users_only.
  cbn [plain_redirects esp_users filter map flat_map].
  rewrite keep_external_app, app_nil_r. reflexivity.
Qed.

Lemma resolve_recipients_parts
    (db : Database) (recipients : list string) (domain : string) :
  resolve_recipients db recipients domain =
  filter (is_real domain) recipients
  ++ resolve_aliases db (filter (is_alias domain) recipients).
Proof.
  unfold resolve_recipients. now rewrite filter_recipients_filters.
Qed.

Lemma resolve_recipients_external
    (db : Database) (recipients : list string) (a : string) :
  In a (resolve_recipients db recipients DOMAIN) -> endswith a DOMAIN = false.
Proof.
  rewrite resolve_recipients_parts. intros H.
  apply in_app_or in H. destruct H as [H|H].
  - apply filter_In in H. destruct H as [_ H]. unfold is_real in H.
    apply andb_true_iff in H. destruct H as [H _].
    now apply negb_true_iff in H.
  - apply keep_external_inv in H. now destruct H as (_ & _ & _ & _ & H).
Qed.

(** X6. With the default suffix, the whole pipeline never returns an
    address ending with ['.learningu.org'], and every input address that
    contains [@] and does not end with the suffix is in its result. *)
Theorem resolve_recipients_external_pass_through
    (db : Database) (recipients : list string) :
  Forall (fun a => endswith a DOMAIN = false)
         (resolve_recipients db recipients DOMAIN)
  /\ forall r, In r recipients -> contains "@" r = true ->
               endswith r DOMAIN = false ->
               In r (resolve_recipients db recipients DOMAIN).
Proof.
  split.
  - apply Forall_forall. intros a. apply resolve_recipients_external.
  - intros r Hin Hat Hext. rewrite resolve_recipients_parts.
    apply in_or_app. left. apply filter_In. split; [exact Hin|].
    unfold is_real. now rewrite Hext, Hat.
Qed.

Lemma resolve_recipients_external_pass_through_witness :
  In "parent@gmail.com"
     (resolve_recipients mixed_db
        ["team@site.learningu.org"; "parent@gmail.com"] DOMAIN).
Proof.
  apply (proj2 (resolve_recipients_external_pass_through mixed_db
                  ["team@site.learningu.org"; "parent@gmail.com"]));
    [right; now left | reflexivity | reflexivity].
Defined.

(** X7. Resolving the result of the pipeline once more resolves nothing
    further: the second pass only drops the addresses without [@]. *)
Theorem resolve_recipients_second_pass
    (db : Database) (recipients : list string) :
  resolve_recipients db (resolve_recipients db recipients DOMAIN) DOMAIN
  = filter (contains "@") (resolve_recipients db recipients DOMAIN).
Proof.
  pose proof (resolve_recipients_external db recipients) as H.
  set (out := resolve_recipients db recipients DOMAIN) in *.
  rewrite resolve_recipients_parts.
  rewrite (filter_none (is_alias DOMAIN) out).
  - rewrite resolve_aliases_nil, app_nil_r.
    clear -H. induction out as [|a out IH]; [reflexivity|].
    cbn [filter]. unfold is_real at 1.
    rewrite (H a (or_introl eq_refl)). cbn [negb andb].
    rewrite IH; [reflexivity|]. intros b Hb. apply H. now right.
  - apply Forall_forall. intros a Ha. exact (H a Ha).
Qed.

End RecipientMore.

(* ------------------------------------------------------------------ *)
(** ** More on sender parsing and lookup *)

Module SenderMore.
Import PyStr PyStrFacts Mailgate MailgateProps SenderParseFacts
       SenderLookupFacts MoreProps.

(** *** Tokens of [split] are pieces of the string *)

Lemma split_token_no_sep (sep : ascii) (s x : string) :
  In x (split sep s) -> contains sep x = false.
Proof.
  revert x. induction s as [|a s IH]; intros x; cbn [split].
  - intros [<-|[]]. reflexivity.
  - destruct (Ascii.eqb a sep) eqn:E.
    + intros [<-|H]; [reflexivity | now apply IH].
    + pose proof (split_not_nil sep s) as N.
      destruct (split sep s) as [|h t]; [congruence|].
      intros [<-|H].
      * cbn [contains]. rewrite E. apply IH. now left.
      * apply IH. now right.
Qed.

Lemma split_token_within (sep c : ascii) (s x : string) :
  In x (split sep s) -> contains c x = true -> contains c s = true.
Proof.
  revert x. induction s as [|a s IH]; intros x; cbn [split].
  - intros [<-|[]]. discriminate.
  - destruct (Ascii.eqb a sep) eqn:E.
    + intros [<-|H] Hc; [discriminate|].
      cbn [contains]. rewrite (IH x H Hc). now destruct (Ascii.eqb a c).
    + pose proof (split_not_nil sep s) as N.
      destruct (split sep s) as [|h t]; [congruence|].
      intros [<-|H] Hc; cbn [contains] in *.
      * destruct (Ascii.eqb a c); [reflexivity|].
        apply (IH h); [now left | exact Hc].
      * rewrite (IH x (or_intror H) Hc). now destruct (Ascii.eqb a c).
Qed.

Lemma lstrip_within (c : ascii) (s : string) :
  contains c (lstrip s) = true -> contains c s = true.
Proof.
  induction s as [|a s IH]; cbn [lstrip]; [discriminate|].
  destruct (is_space a); [|trivial].
  intros H. cbn [contains]. rewrite (IH H). now destruct (Ascii.eqb a c).
Qed.

Lemma rstrip_within (c : ascii) (s : string) :
  contains c (rstrip s) = true -> contains c s = true.
Proof.
  induction s as [|a s IH]; cbn [rstrip]; [discriminate|].
  destruct (rstrip s) as [|b r].
  - destruct (is_space a); [discriminate|]. cbn [contains].
    now destruct (Ascii.eqb a c).
  - cbn [contains] in *. destruct (Ascii.eqb a c); [reflexivity|].
    exact IH.
Qed.

Lemma strip_within (c : ascii) (s : string) :
  contains c (strip s) = true -> contains c s = true.
Proof. intros H. now apply lstrip_within, rstrip_within. Qed.

Lemma index_In {A : Type} (l : list A) (i : nat) (a : A) :
  index l i = Return a -> In a l.
Proof.
  unfold index. destruct (nth_error l i) eqn:E; [|discriminate].
  intros [= <-]. now apply nth_error_In in E.
Qed.

Lemma parse_blank (s : string) :
  contains "," s = false -> strip s = EmptyString ->
  parse_sender_email (Some s) = Return None.
Proof.
  intros Hc Hs. unfold parse_sender_email.
  destruct (truthy s); [|reflexivity]. cbn [negb].
  rewrite (split_absent _ _ Hc). cbn [is_nil is_blank_single orb].
  now rewrite Hs.
Qed.

Lemma absent_of_not_present (c : ascii) (s : string) :
  (contains c s = true -> False) -> contains c s = false.
Proof. destruct (contains c s); [intros H; now elim H | reflexivity]. Qed.

(** X8. An address returned by [parse_sender_email] never contains a
    comma.  When the stripped input has both [<] and [>], the address
    contains neither of them; otherwise it is the stripped input, which is
    non-empty and has no white space at its ends. *)
Theorem parse_sender_email_address (s a : string) :
  parse_sender_email (Some s) = Return (Some a) ->
  contains "," a = false
  /\ (contains "<" (strip s) && contains ">" (strip s) = true ->
      contains "<" a = false /\ contains ">" a = false)
  /\ (contains "<" (strip s) && contains ">" (strip s) = false ->
      a = strip s /\ a <> EmptyString
      /\ (forall c, first_char a = Some c -> is_space c = false)
      /\ (forall c, last_char a = Some c -> is_space c = false)).
Proof.
  intros H.
  assert (Hc : contains "," s = false).
  { destruct (contains "," s) eqn:E; [|reflexivity].
    rewrite (parse_comma s E) in H. discriminate. }
  assert (Hs : strip s <> EmptyString).
  { intros E. rewrite (parse_blank s Hc E) in H. discriminate. }
  rewrite (parse_single s Hc Hs) in H. cbv zeta in H.
  assert (Hcs : contains "," (strip s) = false).
  { apply absent_of_not_present. intros E.
    apply strip_within in E. congruence. }
  destruct (contains "<" (strip s) && contains ">" (strip s)) eqn:B.
  - destruct (index (split "<" (strip s)) 1) as [after|] eqn:E1;
      cbn [bind] in H; [|discriminate].
    destruct (index (split ">" after) 0) as [inner|] eqn:E2;
      cbn [bind] in H; [|discriminate].
    injection H as <-.
    apply index_In in E1. apply index_In in E2.
    split; [|split; [|discriminate]].
    + apply absent_of_not_present. intros E.
      apply (split_token_within _ _ _ _ E2) in E.
      apply (split_token_within _ _ _ _ E1) in E. congruence.
    + intros _. split.
      * apply absent_of_not_present. intros E.
        apply (split_token_within _ _ _ _ E2) in E.
        rewrite (split_token_no_sep _ _ _ E1) in E. discriminate.
      * exact (split_token_no_sep _ _ _ E2).
  - injection H as <-.
    split; [exact Hcs|]. split; [discriminate|].
    intros _. split; [reflexivity|]. split; [exact Hs|]. apply strip_ends.
Qed.

Lemma parse_sender_email_address_witness :
  contains "," "john@example.com" = false
  /\ contains "<" "john@example.com" = false
  /\ contains ">" "john@example.com" = false.
Proof.
  destruct (parse_sender_email_address " John Doe <john@example.com> "
              "john@example.com" eq_refl) as (H1 & H2 & _).
  destruct (H2 eq_refl) as [H3 H4].
  exact (conj H1 (conj H3 H4)).
Defined.

(** *** Lookup *)

Lemma prioritize_In (users : list ESPUser) (group_names : list string)
    (sender : ESPUser) :
  In sender users -> In (prioritize users group_names sender) users.
Proof.
  intros H. induction group_names as [|g rest IH]; cbn [prioritize];
    [exact H|].
  destruct (filter (in_group g) users) as [|first l] eqn:E; [exact IH|].
  assert (F : In first (filter (in_group g) users)) by (rewrite E; now left).
  apply filter_In in F. now destruct F.
Qed.

(** X9. [lookup_sender] returns no account exactly when no row of the
    table matches; an account it returns is a row that matches; and a
    single matching row is returned whatever its roles. *)
Theorem lookup_sender_sound
    (db : Database) (email_address email_host_sender : string) :
  (lookup_sender db email_address email_host_sender = None <->
   forall u, In u (esp_users db) ->
             sender_matches email_address email_host_sender u = false)
  /\ (forall u, lookup_sender db email_address email_host_sender = Some u ->
                matching db email_address email_host_sender u)
  /\ (forall u, filter (sender_matches email_address email_host_sender)
                       (esp_users db) = [u] ->
                lookup_sender db email_address email_host_sender = Some u).
Proof.
  pose proof (candidates_matching db email_address email_host_sender) as Hm.
  split; [|split].
  - rewrite <- filter_nil_iff. unfold lookup_sender, candidates in *.
    split.
    + intros H.
      pose proof (order_by_date_joined_length
                    (filter (sender_matches email_address email_host_sender)
                            (esp_users db))) as L.
      destruct (order_by_date_joined _) as [|o [|o' l]]; try discriminate.
      destruct (filter _ _); [reflexivity | discriminate].
    + intros ->. reflexivity.
  - intros u. unfold lookup_sender.
    destruct (candidates db email_address email_host_sender)
      as [|o [|o' l]] eqn:E; [discriminate| |].
    + intros [= <-]. apply Hm. now left.
    + intros H. injection H as H. subst u. apply Hm.
      apply (prioritize_In (o :: o' :: l) ROLE_PRIORITY o). now left.
  - intros u E. unfold lookup_sender, candidates. now rewrite E.
Qed.

Lemma lookup_sender_sound_witness :
  matching two_accounts "other@gmail.com" "test.learningu.org"
           (mkUser 3 "other" "other@gmail.com" 50 ["Administrator"]).
Proof.
  apply (proj1 (proj2 (lookup_sender_sound two_accounts "other@gmail.com"
                         "test.learningu.org"))).
  reflexivity.
Defined.

Lemma filter_Permutation {A : Type} (f : A -> bool) (l l' : list A) :
  Permutation l l' -> Permutation (filter f l) (filter f l').
Proof.
  induction 1 as [|x l l' _ IH|x y l|l l' l'' _ IH1 _ IH2]; cbn [filter].
  - constructor.
  - destruct (f x); [now constructor | exact IH].
  - destruct (f x), (f y); try apply Permutation_refl. constructor.
  - now transitivity (filter f l').
Qed.

Lemma insert_by_date_Permutation (u : ESPUser) (l : list ESPUser) :
  Permutation (u :: l) (insert_by_date u l).
Proof.
  induction l as [|v l IH]; cbn [insert_by_date]; [apply Permutation_refl|].
  destruct (date_joined u <=? date_joined v)%Z; [apply Permutation_refl|].
  transitivity (v :: u :: l); [constructor | now constructor].
Qed.

Lemma order_by_date_joined_Permutation (l : list ESPUser) :
  Permutation l (order_by_date_joined l).
Proof.
  induction l as [|u l IH]; cbn [order_by_date_joined]; [constructor|].
  transitivity (u :: order_by_date_joined l);
    [now constructor | apply insert_by_date_Permutation].
Qed.

Lemma by_date_head_oldest (u : ESPUser) (l : list ESPUser) (v : ESPUser) :
  by_date (u :: l) -> In v (u :: l) -> older u v.
Proof.
  intros H Hv. inversion H as [|? ? Hall _]; subst.
  destruct Hv as [<-|Hv]; [unfold older; lia|].
  rewrite Forall_forall in Hall. now apply Hall.
Qed.

(** Two lists in creation order with the same rows are equal when no two
    rows share a creation date. *)
Lemma by_date_unique (l l' : list ESPUser) :
  by_date l -> by_date l' -> Permutation l l' ->
  (forall u v, In u l -> In v l -> date_joined u = date_joined v -> u = v) ->
  l = l'.
Proof.
  revert l'. induction l as [|u l IH]; intros l' Hl Hl' P D.
  - apply Permutation_nil in P. now subst.
  - destruct l' as [|u' l'].
    { apply Permutation_sym, Permutation_nil in P. discriminate. }
    assert (Hu' : In u' (u :: l)).
    { apply (Permutation_in _ (Permutation_sym P)). now left. }
    assert (Hu : In u (u' :: l')).
    { apply (Permutation_in _ P). now left. }
    pose proof (by_date_head_oldest _ _ _ Hl Hu') as O1.
    pose proof (by_date_head_oldest _ _ _ Hl' Hu) as O2.
    assert (E : u = u').
    { apply D; [now left | exact Hu' | unfold older in *; lia]. }
    subst u'. f_equal.
    apply Permutation_cons_inv in P.
    inversion Hl; inversion Hl'; subst.
    apply IH; try assumption.
    intros a b Ha Hb. apply D; now right.
Qed.

(** X10. When no two matching accounts share a creation date, the account
    [lookup_sender] returns does not depend on the order of the rows in
    the user table. *)
Theorem lookup_sender_row_order
    (db db' : Database) (email_address email_host_sender : string) :
  Permutation (esp_users db) (esp_users db') ->
  (forall u v,
      matching db email_address email_host_sender u ->
      matching db email_address email_host_sender v ->
      date_joined u = date_joined v -> u = v) ->
  lookup_sender db email_address email_host_sender
  = lookup_sender db' email_address email_host_sender.
Proof.
  intros P D.
  assert (E : candidates db email_address email_host_sender
              = candidates db' email_address email_host_sender).
  { apply by_date_unique.
    - apply order_by_date_joined_sorted.
    - apply order_by_date_joined_sorted.
    - unfold candidates.
      transitivity (filter (sender_matches email_address email_host_sender)
                           (esp_users db));
        [apply Permutation_sym, order_by_date_joined_Permutation|].
      transitivity (filter (sender_matches email_address email_host_sender)
                           (esp_users db'));
        [now apply filter_Permutation
        | apply order_by_date_joined_Permutation].
    - intros u v Hu Hv. apply D; now apply candidates_matching. }
  unfold lookup_sender. now rewrite E.
Qed.

Lemma lookup_sender_row_order_witness :
  lookup_sender two_accounts "dup@gmail.com" "test.learningu.org"
  = lookup_sender
      {| plain_redirects := []; esp_users := rev (esp_users two_accounts) |}
      "dup@gmail.com" "test.learningu.org".
Proof.
  apply lookup_sender_row_order.
  - apply Permutation_rev.
  - intros u v [Hu Mu] [Hv Mv] E.
    cbn in Hu, Hv.
    destruct Hu as [<-|[<-|[<-|[]]]]; destruct Hv as [<-|[<-|[<-|[]]]];
      try reflexivity; try discriminate Mu; try discriminate Mv;
      discriminate E.
Defined.

End SenderMore.

(* ------------------------------------------------------------------ *)
(** ** More on body rendering *)

Module BodyMore.
Import PyStr PyStrFacts Mailgate MailgateProps BodyFacts MoreProps.

(** X11. Unless the message itself is of type [text/html], the content
    [build_email_body] puts inside the skeleton is the escaped content of
    the body part, and has no [<], no [>] and no quote character. *)
Theorem build_email_body_escaped_inert (message : Message) (body : string) :
  get_content_type message <> "text/html" ->
  build_email_body message = Return body ->
  exists content,
    get_content (get_body message) = Return content
    /\ body = wrap (html_escape content)
    /\ contains "<" (html_escape content) = false
    /\ contains ">" (html_escape content) = false
    /\ contains (ascii_of_nat 34) (html_escape content) = false
    /\ contains "'" (html_escape content) = false.
Proof.
  intros Ht. unfold build_email_body.
  destruct (get_content (get_body message)) as [content|e]; cbn [bind];
    [|discriminate].
  apply String.eqb_neq in Ht. rewrite Ht. cbn [negb].
  intros [= <-]. exists content.
  split; [reflexivity|]. split; [reflexivity|].
  apply html_escape_no_markup.
Qed.

Lemma build_email_body_escaped_inert_witness :
  exists content,
    get_content (get_body html_alternative) = Return content
    /\ wrap "&lt;p&gt;Hello &lt;b&gt;world&lt;/b&gt;&lt;/p&gt;"
       = wrap (html_escape content).
Proof.
  destruct (build_email_body_escaped_inert html_alternative
              (wrap "&lt;p&gt;Hello &lt;b&gt;world&lt;/b&gt;&lt;/p&gt;"))
    as (content & H1 & H2 & _).
  - discriminate.
  - reflexivity.
  - now exists content.
Defined.

(** *** Which part a flat multipart message is rendered from *)

Lemma find_body_parts (subtype : string) (parts : list Message) :
  String.eqb subtype "related" = false ->
  find_body (Multipart subtype parts) = flat_map find_body parts.
Proof.
  intros H. cbn [find_body]. rewrite H. cbn [negb].
  induction parts as [|p ps IH]; [reflexivity|].
  cbn [flat_map]. now rewrite IH.
Qed.

Lemma text_leaf_html_found (p : Message) :
  is_leaf p = true -> text_leaf "html" p = true -> find_body p = [(0, p)].
Proof.
  destruct p as [mt st att c|]; [|discriminate]. intros _. cbn [text_leaf].
  destruct att; [discriminate|]. cbn [negb andb find_body].
  intros H. apply andb_true_iff in H. destruct H as [H1 H2].
  rewrite H1. unfold preference. now rewrite H2.
Qed.

Lemma text_leaf_plain_found (p : Message) :
  is_leaf p = true -> text_leaf "html" p = false ->
  text_leaf "plain" p = true -> find_body p = [(1, p)].
Proof.
  destruct p as [mt st att c|]; [|discriminate]. intros _. cbn [text_leaf].
  destruct att; [discriminate|]. cbn [negb andb find_body].
  intros Hh H. apply andb_true_iff in H. destruct H as [H1 H2].
  rewrite H1 in *. cbn [andb] in Hh. unfold preference.
  now rewrite Hh, H2.
Qed.

Lemma text_leaf_none_found (p : Message) :
  is_leaf p = true -> text_leaf "html" p = false ->
  text_leaf "plain" p = false -> find_body p = [].
Proof.
  destruct p as [mt st att c|]; [|discriminate]. intros _. cbn [text_leaf].
  destruct att; [reflexivity|]. cbn [negb andb find_body].
  destruct (String.eqb mt "text"); [|reflexivity]. cbn [andb].
  intros Hh Hp. unfold preference. now rewrite Hh, Hp.
Qed.

(** Once a plain part is held, only an HTML part replaces it. *)
Lemma best_body_after_plain (parts : list Message) (held : Message) :
  Forall (fun p => is_leaf p = true) parts ->
  best_body (flat_map find_body parts) 1 (Some held) =
  match find (text_leaf "html") parts with
  | Some p => Some p
  | None => Some held
  end.
Proof.
  induction 1 as [|p ps Hp _ IH]; [reflexivity|].
  cbn [flat_map find].
  destruct (text_leaf "html" p) eqn:Hh.
  - rewrite (text_leaf_html_found p Hp Hh). reflexivity.
  - destruct (text_leaf "plain" p) eqn:Hpl.
    + rewrite (text_leaf_plain_found p Hp Hh Hpl). exact IH.
    + rewrite (text_leaf_none_found p Hp Hh Hpl). exact IH.
Qed.

Lemma best_body_flat (parts : list Message) :
  Forall (fun p => is_leaf p = true) parts ->
  best_body (flat_map find_body parts) 2 None =
  match find (text_leaf "html") parts with
  | Some p => Some p
  | None => find (text_leaf "plain") parts
  end.
Proof.
  induction 1 as [|p ps Hp Hps IH]; [reflexivity|].
  cbn [flat_map find].
  destruct (text_leaf "html" p) eqn:Hh.
  - rewrite (text_leaf_html_found p Hp Hh). reflexivity.
  - destruct (text_leaf "plain" p) eqn:Hpl.
    + rewrite (text_leaf_plain_found p Hp Hh Hpl).
      cbn [app best_body Nat.ltb Nat.leb Nat.eqb].
      now apply best_body_after_plain.
    + rewrite (text_leaf_none_found p Hp Hh Hpl). exact IH.
Qed.

(** X12. For a multipart message (other than multipart/related) whose
    parts are all leaves, [build_email_body] renders the first HTML text
    part that is not an attachment, else the first such plain-text part,
    wherever they stand among the parts; the content is escaped in both
    cases; with neither, it raises [AttributeError]. *)
Theorem build_email_body_flat_multipart
    (subtype : string) (parts : list Message) :
  String.eqb subtype "related" = false ->
  Forall (fun p => is_leaf p = true) parts ->
  build_email_body (Multipart subtype parts) =
  escaped_body_of
    match find (text_leaf "html") parts with
    | Some p => Some p
    | None => find (text_leaf "plain") parts
    end.
Proof.
  intros Hr Hl. unfold build_email_body, get_body.
  rewrite (find_body_parts _ _ Hr), (best_body_flat _ Hl).
  assert (T : String.eqb (get_content_type (Multipart subtype parts))
                         "text/html" = false).
  { apply String.eqb_neq. cbn [get_content_type]. discriminate. }
  rewrite T. cbn [negb].
  destruct (match find (text_leaf "html") parts with
            | Some p => Some p
            | None => find (text_leaf "plain") parts
            end) as [[mt st att c|st ps]|]; reflexivity.
Qed.

Lemma build_email_body_flat_multipart_witness :
  build_email_body newsletter = Return (wrap "&lt;i&gt;rich&lt;/i&gt;").
Proof.
  unfold newsletter.
  rewrite (build_email_body_flat_multipart "mixed"
             [Leaf "text" "html" true "<b>attached</b>";
              Leaf "text" "plain" false "plain & simple";
              Leaf "image" "png" false "PNG";
              Leaf "text" "html" false "<i>rich</i>"]);
    [reflexivity | reflexivity | repeat constructor].
Defined.

End BodyMore.

(* ------------------------------------------------------------------ *)
(** ** Attachment extraction *)

Module AttachmentFacts.
Import PyStr PyStrFacts Mailgate Attachments MoreProps.

Lemma extract_attachments_filters (parts : list Part) :
  extract_attachments parts =
  (map tuple_of (filter has_content parts),
   map (fun part => no_content_info (get_filename part))
       (filter (fun part => negb (has_content part)) parts)).
Proof.
  induction parts as [|part rest IH]; [reflexivity|].
  cbn [extract_attachments filter]. rewrite IH.
  destruct (get_payload part) as [content|] eqn:P.
  - destruct (truthy content) eqn:T.
    + assert (H : has_content part = true)
        by (unfold has_content; now rewrite P).
      rewrite H. cbn [negb map]. unfold tuple_of. now rewrite P.
    + assert (H : has_content part = false)
        by (unfold has_content; now rewrite P).
      rewrite H. reflexivity.
  - assert (H : has_content part = false)
      by (unfold has_content; now rewrite P).
    rewrite H. reflexivity.
Qed.

Lemma complement_count {A : Type} (f : A -> bool) (l : list A) :
  List.length (filter f l) + List.length (filter (fun a => negb (f a)) l)
  = List.length l.
Proof.
  induction l as [|a l IH]; cbn [filter List.length]; [reflexivity|].
  destruct (f a); cbn [negb List.length]; lia.
Qed.

(** X13. [extract_attachments] returns one tuple for each part with
    content, with the filename, bytes and type of that part, and logs one
    record for each part without: the two counts add up to the number of
    parts, no returned content is empty, every tuple comes from a part,
    and every part with content has its tuple returned. *)
Theorem extract_attachments_accounting (parts : list Part) :
  List.length (fst (extract_attachments parts))
  + List.length (snd (extract_attachments parts)) = List.length parts
  /\ (forall filename content mimetype,
         In (filename, content, mimetype) (fst (extract_attachments parts)) ->
         content <> EmptyString
         /\ exists part, In part parts
                         /\ get_filename part = filename
                         /\ get_payload part = Some content
                         /\ part_content_type part = mimetype)
  /\ (forall part content,
         In part parts -> get_payload part = Some content ->
         content <> EmptyString ->
         In (get_filename part, content, part_content_type part)
            (fst (extract_attachments parts))).
Proof.
  rewrite extract_attachments_filters. cbn [fst snd].
  split; [|split].
  - rewrite !length_map. apply complement_count.
  - intros f c t H. apply in_map_iff in H. destruct H as (part & E & H).
    apply filter_In in H. destruct H as [Hin Hc].
    unfold has_content in Hc. unfold tuple_of in E.
    destruct (get_payload part) as [content|] eqn:P; [|discriminate].
    injection E as <- <- <-.
    split; [now apply truthy_true|]. now exists part.
  - intros part content Hin P Hne. apply in_map_iff. exists part.
    split; [unfold tuple_of; now rewrite P|].
    apply filter_In. split; [exact Hin|].
    unfold has_content. rewrite P. now apply truthy_true.
Qed.

Lemma extract_attachments_accounting_witness :
  In (Some "doc.pdf", "pdf data", "application/pdf")
     (fst (extract_attachments [empty_part; report_pdf; nameless_part])).
Proof.
  apply (proj2 (proj2 (extract_attachments_accounting
                         [empty_part; report_pdf; nameless_part]))
           report_pdf "pdf data");
    [right; now left | reflexivity | discriminate].
Defined.

(** X14. When no part has content (its payload is absent or empty),
    [extract_attachments] returns the empty list and logs one record for
    each part, in order. *)
Theorem extract_attachments_all_empty (parts : list Part) :
  Forall (fun part => get_payload part = None
                      \/ get_payload part = Some EmptyString) parts ->
  extract_attachments parts =
  ([], map (fun part => no_content_info (get_filename part)) parts).
Proof.
  intros H. rewrite extract_attachments_filters.
  assert (E : Forall (fun part => has_content part = false) parts).
  { eapply Forall_impl; [|exact H]. intros part [P|P];
      unfold has_content; now rewrite P. }
  rewrite (RecipientFacts.filter_none has_content parts E).
  rewrite (RecipientFacts.filter_id (fun part => negb (has_content part)) parts).
  - reflexivity.
  - eapply Forall_impl; [|exact E]. intros part P. now rewrite P.
Qed.

Lemma extract_attachments_all_empty_witness :
  extract_attachments [empty_part; nameless_part] =
  ([], [no_content_info (Some "empty.txt"); no_content_info None]).
Proof.
  apply (extract_attachments_all_empty [empty_part; nameless_part]).
  constructor; [now right|]. constructor; [now left | constructor].
Defined.

(** X15. [extract_attachments] keeps the order of the parts and treats
    each one on its own: on a concatenation it returns the concatenation
    of the tuples and of the log records of the two halves. *)
Theorem extract_attachments_app (a b : list Part) :
  extract_attachments (a ++ b) =
  (fst (extract_attachments a) ++ fst (extract_attachments b),
   snd (extract_attachments a) ++ snd (extract_attachments b)).
Proof.
  rewrite !extract_attachments_filters. cbn [fst snd].
  now rewrite !filter_app, !map_app.
Qed.

End AttachmentFacts.

(* ------------------------------------------------------------------ *)
(** ** More on the migration *)

Module MigrationMore.
Import Migration0047 MigrationProps MigrationFacts MoreMigrationProps.

(** *** The ids written *)

Lemma existsb_Zeqb_false (x : Z) (l : list Z) :
  existsb (Z.eqb x) l = false <-> ~ In x l.
Proof.
  split.
  - intros E H. assert (T : existsb (Z.eqb x) l = true).
    { apply existsb_exists. exists x. split; [exact H | apply Z.eqb_refl]. }
    congruence.
  - intros H. destruct (existsb (Z.eqb x) l) eqn:E; [|reflexivity].
    apply existsb_exists in E. destruct E as (y & Hy & Ey).
    apply Z.eqb_eq in Ey. subst. contradiction.
Qed.

Lemma existsb_Zeqb_true (x : Z) (l : list Z) :
  existsb (Z.eqb x) l = true <-> In x l.
Proof.
  rewrite existsb_exists. split.
  - intros (y & Hy & Ey). apply Z.eqb_eq in Ey. now subst.
  - intros H. exists x. split; [exact H | apply Z.eqb_refl].
Qed.

Lemma set_add_NoDup (pid : Z) (seen : list Z) :
  NoDup seen -> NoDup (set_add pid seen).
Proof.
  intros H. unfold set_add. destruct (existsb (Z.eqb pid) seen) eqn:E;
    [exact H|].
  apply existsb_Zeqb_false in E.
  apply NoDup_app; [exact H | repeat constructor; intros [] |].
  intros a Ha [<-|[]]. contradiction.
Qed.

Lemma add_all_NoDup (pids seen : list Z) :
  NoDup seen -> NoDup (fold_left (fun s pid => set_add pid s) pids seen).
Proof.
  revert seen. induction pids as [|p pids IH]; intros seen H; cbn [fold_left];
    [exact H|].
  apply IH. now apply set_add_NoDup.
Qed.

Lemma collect_ids_NoDup (db : Database) : NoDup (collect_ids db).
Proof.
  unfold collect_ids.
  assert (G : forall qs seen, NoDup seen ->
                NoDup (fold_left
                         (fun seen am_module =>
                            fold_left (fun s pid => set_add pid s)
                                      (programs_with db am_module) seen)
                         qs seen)).
  { induction qs as [|m qs IH]; intros seen H; cbn [fold_left]; [exact H|].
    apply IH. now apply add_all_NoDup. }
  apply G. constructor.
Qed.

Lemma insert_sorted_increasing (x : Z) (l : list Z) :
  StronglySorted Z.lt l -> ~ In x l -> StronglySorted Z.lt (insert_sorted x l).
Proof.
  induction 1 as [|y r Hr IH Hy]; intros Hx; cbn [insert_sorted].
  - repeat constructor.
  - assert (Hxy : x <> y) by (intros ->; apply Hx; now left).
    destruct (Z.leb_spec x y) as [Le|Gt].
    + constructor; [now constructor|].
      constructor; [lia|]. eapply Forall_impl; [|exact Hy].
      intros a Ha. cbn beta in Ha. lia.
    + constructor.
      * apply IH. intros H. apply Hx. now right.
      * apply Forall_forall. intros a Ha. apply insert_sorted_In in Ha.
        destruct Ha as [->|Ha]; [lia|].
        rewrite Forall_forall in Hy. now apply Hy.
Qed.

Lemma sorted_increasing (l : list Z) :
  NoDup l -> StronglySorted Z.lt (sorted l).
Proof.
  unfold sorted. induction 1 as [|x l Hx _ IH]; cbn [fold_right];
    [constructor|].
  apply insert_sorted_increasing; [exact IH|].
  intros H. apply Hx. exact (proj1 (sorted_In x l) H).
Qed.

Lemma forward_writable (db : Database) (fs : FileSystem) :
  read_only fs = false ->
  remove_adminmorph_programmodule db fs
  = Done (delete_adminmorph db)
         {| state_file := Some (state_of (sorted (collect_ids db)));
            read_only := false |}.
Proof.
  intros H. unfold remove_adminmorph_programmodule, write_state.
  now rewrite H.
Qed.

Lemma written_ids_In (db : Database) (pid : Z) :
  In pid (sorted (collect_ids db)) <-> exists m, association db pid m.
Proof. rewrite sorted_In. apply collect_ids_In. Qed.

(** X16. When the state file can be written, the forward migration
    completes and leaves in it the list of the ids of the programs that
    had AdminMorph installed, on any of the registry rows with that
    handler, each id once and in increasing order. *)
Theorem forward_migration_state_file (db : Database) (fs : FileSystem) :
  read_only fs = false ->
  exists ids,
    remove_adminmorph_programmodule db fs
    = Done (delete_adminmorph db)
           {| state_file := Some (state_of ids); read_only := false |}
    /\ StronglySorted Z.lt ids
    /\ forall pid, In pid ids <-> exists m, association db pid m.
Proof.
  intros H. exists (sorted (collect_ids db)).
  split; [|split].
  - now apply forward_writable.
  - apply sorted_increasing, collect_ids_NoDup.
  - apply written_ids_In.
Qed.

Lemma forward_migration_state_file_witness :
  exists ids,
    remove_adminmorph_programmodule installed writable
    = Done (delete_adminmorph installed)
           {| state_file := Some (state_of ids); read_only := false |}
    /\ StronglySorted Z.lt ids.
Proof.
  destruct (forward_migration_state_file installed writable eq_refl)
    as (ids & H1 & H2 & _).
  exists ids. now split.
Defined.

(** *** Writing and reading the state *)

Lemma ints_of_map (ids : list Z) : ints_of (map JInt ids) = Some ids.
Proof.
  induction ids as [|n ids IH]; cbn [map ints_of]; [reflexivity|].
  now rewrite IH.
Qed.

(** X17. What the forward migration writes, the reverse migration reads
    back: after a successful write of the ids, the [try] block of the
    reverse migration ends with exactly these ids to restore. *)
Theorem state_file_round_trip
    (coerce_ids : json -> list Z + exn) (fs fs' : FileSystem) (ids : list Z) :
  write_state fs ids = Some fs' ->
  exists v, read_state fs' = inl v /\ ids_of_json coerce_ids v = inl ids.
Proof.
  unfold write_state. destruct (read_only fs); [discriminate|].
  intros [= <-]. exists (JArray (map JInt ids)).
  split; [reflexivity|]. cbn [ids_of_json]. now rewrite ints_of_map.
Qed.

Lemma state_file_round_trip_witness :
  exists v,
    read_state {| state_file := Some (state_of [1; 3]%Z); read_only := false |}
    = inl v
    /\ ids_of_json refuse_ids v = inl [1; 3]%Z.
Proof.
  apply (state_file_round_trip refuse_ids writable _ [1; 3]%Z). reflexivity.
Defined.

(** *** Deletion *)

Lemma filter_twice {A : Type} (f : A -> bool) (l : list A) :
  filter f (filter f l) = filter f l.
Proof.
  induction l as [|a l IH]; cbn [filter]; [reflexivity|].
  destruct (f a) eqn:E; cbn [filter]; [rewrite E|]; now rewrite ?IH.
Qed.

Lemma filter_all {A : Type} (f : A -> bool) (l : list A) :
  (forall a, In a l -> f a = true) -> filter f l = l.
Proof.
  induction l as [|a l IH]; cbn [filter]; [reflexivity|].
  intros H. rewrite (H a (or_introl eq_refl)).
  now rewrite IH by (intros b Hb; apply H; now right).
Qed.

Lemma adminmorph_qs_deleted (db : Database) :
  adminmorph_qs (delete_adminmorph db) = [].
Proof.
  unfold adminmorph_qs, delete_adminmorph. cbn [program_modules].
  induction (program_modules db) as [|m l IH]; cbn [filter]; [reflexivity|].
  destruct (is_adminmorph m) eqn:E; cbn [negb filter]; [exact IH|].
  now rewrite E.
Qed.

Lemma delete_adminmorph_absent (db : Database) :
  adminmorph_qs db = [] -> delete_adminmorph db = db.
Proof.
  intros H. unfold delete_adminmorph, deleted_link. rewrite H.
  cbn [existsb negb].
  rewrite (filter_all (fun _ => true)) by reflexivity.
  rewrite filter_all; [now destruct db|].
  intros m Hm. unfold adminmorph_qs in H.
  destruct (is_adminmorph m) eqn:E; [|reflexivity].
  assert (F : In m (filter is_adminmorph (program_modules db)))
    by (apply filter_In; now split).
  rewrite H in F. destruct F.
Qed.

Lemma delete_adminmorph_links (db : Database) (pid : Z) (i : nat) :
  In (pid, i) (links (delete_adminmorph db)) <->
  In (pid, i) (links db)
  /\ forall m, In m (program_modules db) -> handler m = "AdminMorph" ->
               pm_id m <> i.
Proof.
  unfold delete_adminmorph. cbn [links]. rewrite filter_In.
  unfold deleted_link, adminmorph_qs. cbn [snd].
  split; intros [H1 H2]; (split; [exact H1|]).
  - intros m Hm Hh E. apply negb_true_iff in H2.
    assert (T : existsb (fun m0 => Nat.eqb (pm_id m0) i)
                        (filter is_adminmorph (program_modules db)) = true).
    { apply existsb_exists. exists m. split.
      - apply filter_In. split; [exact Hm | now apply is_adminmorph_true].
      - now apply Nat.eqb_eq. }
    congruence.
  - apply negb_true_iff.
    destruct (existsb _ _) eqn:E; [|reflexivity].
    apply existsb_exists in E. destruct E as (m & Hm & Ei).
    apply filter_In in Hm. destruct Hm as [Hm Ha].
    apply Nat.eqb_eq in Ei. apply is_adminmorph_true in Ha.
    now elim (H2 m Hm Ha).
Qed.

Lemma forward_done (db db' : Database) (fs fs' : FileSystem) :
  remove_adminmorph_programmodule db fs = Done db' fs' ->
  db' = delete_adminmorph db.
Proof.
  unfold remove_adminmorph_programmodule.
  destruct (write_state fs _); [now intros [= <- _]|].
  destruct (nonempty _); [discriminate | now intros [= <- _]].
Qed.

Lemma NoDup_map_filter {A B : Type} (f : A -> B) (g : A -> bool) (l : list A) :
  NoDup (map f l) -> NoDup (map f (filter g l)).
Proof.
  induction l as [|a l IH]; cbn [map filter]; [trivial|].
  intros H. inversion H as [|? ? Ha Hl]; subst.
  destruct (g a); cbn [map]; [|now apply IH].
  constructor; [|now apply IH].
  intros F. apply Ha. apply in_map_iff in F. destruct F as (b & E & Hb).
  apply filter_In in Hb. apply in_map_iff. exists b. tauto.
Qed.

(** X18. A forward migration that completes keeps the database
    consistent: the programs are untouched, no link is added, the links
    that remain still point to registry rows, and the primary keys of the
    registry stay unique. *)
Theorem forward_migration_keeps_integrity
    (db db' : Database) (fs fs' : FileSystem) :
  remove_adminmorph_programmodule db fs = Done db' fs' ->
  programs db' = programs db
  /\ (forall l, In l (links db') -> In l (links db))
  /\ (links_to_rows db -> links_to_rows db')
  /\ (unique_ids db -> unique_ids db').
Proof.
  intros H. apply forward_done in H. subst db'.
  split; [reflexivity|]. split; [|split].
  - intros [pid i] Hl. now apply delete_adminmorph_links in Hl.
  - intros R pid i Hl. apply delete_adminmorph_links in Hl.
    destruct Hl as [Hl Hn]. destruct (R pid i Hl) as (m & Hm & E).
    exists m. split; [|exact E]. apply delete_adminmorph_rows.
    split; [exact Hm|]. intros Hh. now apply (Hn m Hm Hh).
  - unfold unique_ids, delete_adminmorph. cbn [program_modules].
    apply NoDup_map_filter.
Qed.

Lemma forward_migration_keeps_integrity_witness :
  links_to_rows (delete_adminmorph installed).
Proof.
  apply (proj1 (proj2 (proj2 (forward_migration_keeps_integrity installed
           (delete_adminmorph installed) writable
           {| state_file := Some (state_of [1; 3]%Z); read_only := false |}
           eq_refl)))).
  intros pid i H. cbn in H.
  destruct H as [[= <- <-]|[[= <- <-]|[[= <- <-]|[]]]].
  - exists morph_row. split; [now left | reflexivity].
  - exists other_row. split; [right; now left | reflexivity].
  - exists morph_row. split; [now left | reflexivity].
Defined.

(** X19. On a database without any AdminMorph row the forward migration
    never raises and leaves the database as it is, whether the file can
    be written or not; when it can, the state file is overwritten with an
    empty list of ids. *)
Theorem forward_migration_nothing_to_do (db : Database) (fs : FileSystem) :
  (forall m, In m (program_modules db) -> handler m <> "AdminMorph") ->
  exists fs',
    remove_adminmorph_programmodule db fs = Done db fs'
    /\ (read_only fs = true -> fs' = fs)
    /\ (read_only fs = false -> state_file fs' = Some (state_of [])).
Proof.
  intros H.
  assert (Q : adminmorph_qs db = []).
  { unfold adminmorph_qs. apply RecipientFacts.filter_none.
    apply Forall_forall. intros m Hm. unfold is_adminmorph.
    apply String.eqb_neq. now apply H. }
  unfold remove_adminmorph_programmodule, write_state, collect_ids.
  rewrite Q, (delete_adminmorph_absent db Q). cbn [fold_left sorted fold_right].
  destruct (read_only fs) eqn:R.
  - exists fs. cbn [nonempty]. split; [reflexivity|]. split; [trivial|discriminate].
  - eexists. split; [reflexivity|]. split; [discriminate|reflexivity].
Qed.

Lemma forward_migration_nothing_to_do_witness :
  exists fs',
    remove_adminmorph_programmodule migrated locked = Done migrated fs'.
Proof.
  destruct (forward_migration_nothing_to_do migrated locked)
    as (fs' & H & _).
  - intros m [<-|[]]. discriminate.
  - now exists fs'.
Defined.

Lemma delete_adminmorph_twice (db : Database) :
  delete_adminmorph (delete_adminmorph db) = delete_adminmorph db.
Proof. apply delete_adminmorph_absent, adminmorph_qs_deleted. Qed.

(** X20. Whenever the forward function of migration 0047 completes, the
    database it leaves is the one the forward function of migration 0048
    produces, and applying 0048 after it changes nothing. *)
Theorem migration_0048_after_0047
    (db db' : Database) (fs fs' : FileSystem) :
  remove_adminmorph_programmodule db fs = Done db' fs' ->
  db' = Migration0048.remove_adminmorph_programmodule db
  /\ Migration0048.remove_adminmorph_programmodule db' = db'.
Proof.
  intros H. apply forward_done in H. subst db'.
  unfold Migration0048.remove_adminmorph_programmodule.
  split; [reflexivity | apply delete_adminmorph_twice].
Qed.

Lemma migration_0048_after_0047_witness :
  Migration0048.remove_adminmorph_programmodule migrated = migrated.
Proof.
  apply (proj2 (migration_0048_after_0047 installed migrated writable
                  {| state_file := Some (state_of [1; 3]%Z);
                     read_only := false |} eq_refl)).
Defined.


(** *** The reverse migration *)

Lemma add_link_In (am : ProgramModule) (ls : list (Z * nat)) (pid : Z)
    (x : Z * nat) :
  In x (add_link am ls pid) <-> In x ls \/ x = (pid, pm_id am).
Proof.
  unfold add_link.
  destruct (existsb _ ls) eqn:E.
  - split; [now left|]. intros [H| ->]; [exact H|].
    apply existsb_exists in E. destruct E as ([p i] & Hin & Ei).
    cbn [fst snd] in Ei. apply andb_true_iff in Ei. destruct Ei as [E1 E2].
    apply Z.eqb_eq in E1. apply Nat.eqb_eq in E2. now subst.
  - rewrite in_app_iff. cbn [In]. intuition congruence.
Qed.

Lemma add_links_In (am : ProgramModule) (pids : list Z) (ls : list (Z * nat))
    (x : Z * nat) :
  In x (fold_left (add_link am) pids ls) <->
  In x ls \/ exists pid, In pid pids /\ x = (pid, pm_id am).
Proof.
  revert ls. induction pids as [|p pids IH]; intros ls; cbn [fold_left].
  - split; [now left|]. intros [H|(p & [] & _)]. exact H.
  - rewrite IH, add_link_In. split.
    + intros [[H|H]|(q & Hq & H)]; [now left | right | right].
      * exists p. split; [now left | exact H].
      * exists q. split; [now right | exact H].
    + intros [H|(q & [<-|Hq] & H)]; [now left; left | now left; right|].
      right. now exists q.
Qed.

Lemma add_link_NoDup (am : ProgramModule) (ls : list (Z * nat)) (pid : Z) :
  NoDup ls -> NoDup (add_link am ls pid).
Proof.
  intros H. unfold add_link. destruct (existsb _ ls) eqn:E; [exact H|].
  apply NoDup_app; [exact H | repeat constructor; intros [] |].
  intros a Ha [<-|[]].
  assert (T : existsb (fun l => Z.eqb (fst l) pid && Nat.eqb (snd l) (pm_id am))
                      ls = true).
  { apply existsb_exists. exists (pid, pm_id am). split; [exact Ha|].
    cbn [fst snd]. now rewrite Z.eqb_refl, Nat.eqb_refl. }
  congruence.
Qed.

Lemma add_links_NoDup (am : ProgramModule) (pids : list Z)
    (ls : list (Z * nat)) :
  NoDup ls -> NoDup (fold_left (add_link am) pids ls).
Proof.
  revert ls. induction pids as [|p pids IH]; intros ls H; cbn [fold_left];
    [exact H|].
  apply IH. now apply add_link_NoDup.
Qed.

Lemma add_links_present (am : ProgramModule) (pids : list Z)
    (ls : list (Z * nat)) :
  (forall pid, In pid pids -> In (pid, pm_id am) ls) ->
  fold_left (add_link am) pids ls = ls.
Proof.
  induction pids as [|p pids IH]; intros H; cbn [fold_left]; [reflexivity|].
  assert (E : add_link am ls p = ls).
  { unfold add_link.
    assert (T : existsb (fun l => Z.eqb (fst l) p && Nat.eqb (snd l) (pm_id am))
                        ls = true).
    { apply existsb_exists. exists (p, pm_id am).
      split; [apply H; now left|].
      cbn [fst snd]. now rewrite Z.eqb_refl, Nat.eqb_refl. }
    now rewrite T. }
  rewrite E. apply IH. intros q Hq. apply H. now right.
Qed.

Lemma adminmorph_qs_app (db : Database) (am : ProgramModule) :
  filter is_adminmorph (program_modules db ++ [adminmorph_defaults (pm_id am)])
  = adminmorph_qs db ++ [adminmorph_defaults (pm_id am)].
Proof. now rewrite filter_app. Qed.

(** What [get_or_create] returns and leaves. *)
Lemma get_or_create_row (db db1 : Database) (am : ProgramModule) :
  get_or_create db = inl (am, db1) ->
  adminmorph_qs db1 = [am]
  /\ handler am = "AdminMorph"
  /\ programs db1 = programs db /\ links db1 = links db
  /\ (program_modules db1 = program_modules db
      \/ (adminmorph_qs db = []
          /\ am = adminmorph_defaults (next_pm_id db)
          /\ program_modules db1 = program_modules db ++ [am])).
Proof.
  unfold get_or_create.
  destruct (adminmorph_qs db) as [|m [|m' l]] eqn:E; [| |discriminate].
  - intros [= <- <-]. unfold adminmorph_qs in *. cbn [program_modules].
    rewrite filter_app, E. cbn.
    repeat split. right. now repeat split.
  - intros [= <- <-]. split; [exact E|].
    assert (H : In m (adminmorph_qs db)) by (rewrite E; now left).
    apply filter_In in H. rewrite is_adminmorph_true in H.
    repeat split; [tauto | now left].
Qed.

Lemma reverse_done (coerce_ids : json -> list Z + exn)
    (db db' : Database) (fs fs' : FileSystem) :
  restore_adminmorph_programmodule coerce_ids db fs = Done db' fs' ->
  exists am db1 v ids,
    get_or_create db = inl (am, db1)
    /\ read_state fs = inl v /\ ids_of_json coerce_ids v = inl ids
    /\ db' = restore_links db1 am ids /\ fs' = remove_state_file fs.
Proof.
  unfold restore_adminmorph_programmodule.
  destruct (get_or_create db) as [[am db1]|e]; [|discriminate].
  destruct (read_state fs) as [v|e]; [|discriminate].
  destruct (ids_of_json coerce_ids v) as [ids|e] eqn:Hi; [|discriminate].
  intros [= <- <-]. exists am, db1, v, ids. now rewrite Hi.
Qed.

(** X21. A reverse migration that completes removes nothing and invents
    nothing: every registry row and every link is still there, the
    programs are untouched, a link that is new joins an existing program
    to an AdminMorph row, and the links stay free of duplicates. *)
Theorem reverse_migration_only_adds
    (coerce_ids : json -> list Z + exn)
    (db db' : Database) (fs fs' : FileSystem) :
  restore_adminmorph_programmodule coerce_ids db fs = Done db' fs' ->
  (forall m, In m (program_modules db) -> In m (program_modules db'))
  /\ programs db' = programs db
  /\ (forall l, In l (links db) -> In l (links db'))
  /\ (forall pid i, In (pid, i) (links db') -> ~ In (pid, i) (links db) ->
                    In pid (programs db)
                    /\ exists am, In am (program_modules db')
                                  /\ handler am = "AdminMorph"
                                  /\ pm_id am = i)
  /\ (NoDup (links db) -> NoDup (links db')).
Proof.
  intros H. apply reverse_done in H.
  destruct H as (am & db1 & v & ids & G & _ & _ & -> & _).
  apply get_or_create_row in G.
  destruct G as (Q & Hh & Hp & Hl & Hr).
  assert (Ham : In am (program_modules db1)).
  { assert (F : In am (adminmorph_qs db1)) by (rewrite Q; now left).
    apply filter_In in F. tauto. }
  unfold restore_links. cbn [program_modules programs links].
  split; [|split; [|split; [|split]]].
  - intros m Hm. destruct Hr as [-> | (_ & _ & ->)]; [exact Hm|].
    apply in_or_app. now left.
  - exact Hp.
  - intros l Hin. apply add_links_In. left. now rewrite Hl.
  - intros pid i Hin Hnew. apply add_links_In in Hin.
    destruct Hin as [Hin|(p & Hp' & E)]; [rewrite Hl in Hin; contradiction|].
    injection E as -> ->. apply filter_In in Hp'. rewrite Hp in Hp'.
    split; [tauto|]. now exists am.
  - intros N. apply add_links_NoDup. now rewrite Hl.
Qed.

Lemma reverse_migration_only_adds_witness :
  NoDup [(3%Z, 8); (3%Z, 9); (1%Z, 9)].
Proof.
  apply (proj2 (proj2 (proj2 (proj2 (reverse_migration_only_adds refuse_ids
           migrated
           {| program_modules := [other_row; adminmorph_defaults 9];
              programs := [3; 1]%Z;
              links := [(3%Z, 8); (3%Z, 9); (1%Z, 9)] |}
           saved {| state_file := None; read_only := false |} eq_refl))))).
  cbn. repeat constructor. intros [].
Defined.

Lemma remove_state_file_twice (fs : FileSystem) :
  remove_state_file (remove_state_file fs) = remove_state_file fs.
Proof.
  unfold remove_state_file. destruct (read_only fs) eqn:R.
  - now rewrite R.
  - reflexivity.
Qed.

Lemma read_state_removed (coerce_ids : json -> list Z + exn)
    (fs : FileSystem) (v : json) (ids : list Z) :
  read_state fs = inl v -> ids_of_json coerce_ids v = inl ids ->
  exists v' ids',
    read_state (remove_state_file fs) = inl v'
    /\ ids_of_json coerce_ids v' = inl ids'
    /\ forall pid, In pid ids' -> In pid ids.
Proof.
  intros Hv Hi. unfold remove_state_file. destruct (read_only fs).
  - now exists v, ids.
  - exists (JArray []), []. repeat split. intros pid [].
Qed.

(** X22. The reverse migration is idempotent: run again on the state a
    completed run has left, it completes and changes neither the database
    nor the file system. *)
Theorem reverse_migration_idempotent
    (coerce_ids : json -> list Z + exn)
    (db db' : Database) (fs fs' : FileSystem) :
  restore_adminmorph_programmodule coerce_ids db fs = Done db' fs' ->
  restore_adminmorph_programmodule coerce_ids db' fs' = Done db' fs'.
Proof.
  intros H. apply reverse_done in H.
  destruct H as (am & db1 & v & ids & G & Hv & Hi & -> & ->).
  apply get_or_create_row in G.
  destruct G as (Q & Hh & Hp & Hl & _).
  destruct (read_state_removed coerce_ids fs v ids Hv Hi)
    as (v' & ids' & Hv' & Hi' & Sub).
  unfold restore_adminmorph_programmodule.
  assert (G' : get_or_create (restore_links db1 am ids)
               = inl (am, restore_links db1 am ids)).
  { unfold get_or_create, adminmorph_qs, restore_links.
    cbn [program_modules]. fold (adminmorph_qs db1). now rewrite Q. }
  rewrite G', Hv', Hi', remove_state_file_twice. f_equal.
  unfold restore_links. cbn [program_modules programs links]. f_equal.
  apply add_links_present. intros pid Hpid. apply add_links_In.
  right. exists pid. split; [|reflexivity].
  apply filter_In in Hpid. apply filter_In. split; [tauto|].
  apply existsb_Zeqb_true. apply Sub. now apply existsb_Zeqb_true.
Qed.

Lemma reverse_migration_idempotent_witness :
  restore_adminmorph_programmodule refuse_ids
    {| program_modules := [other_row; adminmorph_defaults 9];
       programs := [3; 1]%Z;
       links := [(3%Z, 8); (3%Z, 9); (1%Z, 9)] |}
    {| state_file := None; read_only := false |}
  = Done {| program_modules := [other_row; adminmorph_defaults 9];
            programs := [3; 1]%Z;
            links := [(3%Z, 8); (3%Z, 9); (1%Z, 9)] |}
         {| state_file := None; read_only := false |}.
Proof.
  apply (reverse_migration_idempotent refuse_ids migrated _ saved _).
  reflexivity.
Defined.

Lemma dict_get_absent (members : list (string * json)) (key : string)
    (default : json) :
  (forall k v, In (k, v) members -> k <> key) ->
  dict_get members key default = default.
Proof.
  revert default. induction members as [|[k v] rest IH]; intros default H;
    cbn [dict_get]; [reflexivity|].
  assert (E : String.eqb k key = false).
  { apply String.eqb_neq. apply (H k v). now left. }
  rewrite E. apply IH. intros k' v' Hin. apply (H k' v'). now right.
Qed.

(** X23. A state file holding a JSON object without the key
    [program_ids] restores nothing: on a registry with at most one
    AdminMorph row the reverse migration completes with the programs and
    the links as they were. *)
Theorem reverse_migration_missing_key
    (coerce_ids : json -> list Z + exn)
    (db : Database) (fs : FileSystem) (members : list (string * json)) :
  state_file fs = Some (Json (JObject members)) ->
  (forall k v, In (k, v) members -> k <> "program_ids") ->
  (List.length (adminmorph_qs db) <= 1)%nat ->
  exists db',
    restore_adminmorph_programmodule coerce_ids db fs
    = Done db' (remove_state_file fs)
    /\ links db' = links db /\ programs db' = programs db
    /\ exists am, In am (program_modules db') /\ handler am = "AdminMorph".
Proof.
  intros Hf Hk Hq. unfold restore_adminmorph_programmodule.
  destruct (get_or_create_cases db)
    as [(am & db1 & -> & _ & Ham & Hh & Hp & Hl) | [_ Hlen]]; [|lia].
  unfold read_state. rewrite Hf, (dict_get_absent _ _ _ Hk).
  cbn [ids_of_json ints_of]. rewrite restore_links_nil.
  exists db1. repeat split; try assumption. now exists am.
Qed.

Lemma reverse_migration_missing_key_witness :
  exists db',
    restore_adminmorph_programmodule refuse_ids migrated
      {| state_file := Some (Json (JObject [("programs", JArray [JInt 3])]));
         read_only := false |}
    = Done db' {| state_file := None; read_only := false |}
    /\ links db' = links migrated.
Proof.
  destruct (reverse_migration_missing_key refuse_ids migrated
              {| state_file := Some (Json (JObject [("programs", JArray [JInt 3])]));
                 read_only := false |}
              [("programs", JArray [JInt 3])])
    as (db' & H & L & _).
  - reflexivity.
  - intros k v [[= <- <-]|[]]. discriminate.
  - cbn. lia.
  - exists db'. now split.
Defined.

(** X24. A state file holding valid JSON that is not an object is not
    tolerated: on a registry with at most one AdminMorph row the reverse
    migration raises [AttributeError], after the registry row is in place
    and before any link is restored, and leaves the file where it is. *)
Theorem reverse_migration_not_an_object
    (coerce_ids : json -> list Z + exn)
    (db : Database) (fs : FileSystem) (data : json) :
  state_file fs = Some (Json data) ->
  is_object data = false ->
  (List.length (adminmorph_qs db) <= 1)%nat ->
  exists db1,
    restore_adminmorph_programmodule coerce_ids db fs
    = Raised AttributeError db1 fs
    /\ links db1 = links db
    /\ exists am, In am (program_modules db1) /\ handler am = "AdminMorph".
Proof.
  intros Hf Ho Hq. unfold restore_adminmorph_programmodule.
  destruct (get_or_create_cases db)
    as [(am & db1 & -> & _ & Ham & Hh & Hp & Hl) | [_ Hlen]]; [|lia].
  unfold read_state. rewrite Hf.
  exists db1. split; [|split; [exact Hl | now exists am]].
  destruct data; try reflexivity. discriminate Ho.
Qed.

Lemma reverse_migration_not_an_object_witness :
  exists db1,
    restore_adminmorph_programmodule refuse_ids migrated
      {| state_file := Some (Json (JArray [JInt 1; JInt 3]));
         read_only := false |}
    = Raised AttributeError db1
        {| state_file := Some (Json (JArray [JInt 1; JInt 3]));
           read_only := false |}.
Proof.
  destruct (reverse_migration_not_an_object refuse_ids migrated
              {| state_file := Some (Json (JArray [JInt 1; JInt 3]));
                 read_only := false |}
              (JArray [JInt 1; JInt 3]))
    as (db1 & H & _); [reflexivity | reflexivity | cbn; lia |].
  now exists db1.
Defined.

(** *** Forward, then reverse *)

Lemma same_id_same_row (db : Database) (a b : ProgramModule) :
  unique_ids db -> In a (program_modules db) -> In b (program_modules db) ->
  pm_id a = pm_id b -> a = b.
Proof.
  unfold unique_ids. induction (program_modules db) as [|m l IH];
    [intros _ []|].
  cbn [map]. intros N Ha Hb E. inversion N as [|? ? Hm Hl]; subst.
  destruct Ha as [<-|Ha], Hb as [<-|Hb].
  - reflexivity.
  - elim Hm. rewrite E. now apply in_map.
  - elim Hm. rewrite <- E. now apply in_map.
  - now apply IH.
Qed.

(** X25. Rolling back restores what the forward migration removed.  On a
    database whose links point to registry rows and whose registry ids
    are unique, with a writable state file, the forward migration
    followed by the reverse migration completes, removes the state file,
    and leaves: the programs untouched; the other registry rows, plus one
    AdminMorph row with the default titles; that row linked to exactly
    the programs that had AdminMorph installed; every other row linked as
    before. *)
Theorem migration_round_trip
    (coerce_ids : json -> list Z + exn) (db : Database) (fs : FileSystem) :
  read_only fs = false ->
  links_to_rows db -> unique_ids db ->
  exists fs1 db2 am,
    remove_adminmorph_programmodule db fs = Done (delete_adminmorph db) fs1
    /\ restore_adminmorph_programmodule coerce_ids (delete_adminmorph db) fs1
       = Done db2 {| state_file := None; read_only := false |}
    /\ am = adminmorph_defaults (pm_id am)
    /\ program_modules db2 = program_modules (delete_adminmorph db) ++ [am]
    /\ programs db2 = programs db
    /\ (forall pid, In (pid, pm_id am) (links db2) <->
                    exists m, association db pid m)
    /\ (forall pid m, In m (program_modules db) ->
                      handler m <> "AdminMorph" ->
                      (In (pid, pm_id m) (links db2) <->
                       In (pid, pm_id m) (links db))).
Proof.
  intros Hw Hrows Huniq.
  pose proof (forward_writable db fs Hw) as Hf.
  pose proof (written_ids_In db) as Hids.
  set (ids := sorted (collect_ids db)) in *.
  set (db1 := delete_adminmorph db) in *.
  set (am := adminmorph_defaults (next_pm_id db1)).
  set (fs1 := {| state_file := Some (state_of ids); read_only := false |}) in *.
  set (db2 := restore_links
                {| program_modules := program_modules db1 ++ [am];
                   programs := programs db1; links := links db1 |} am ids).
  exists fs1, db2, am.
  assert (Hrev : restore_adminmorph_programmodule coerce_ids db1 fs1
                 = Done db2 {| state_file := None; read_only := false |}).
  { unfold restore_adminmorph_programmodule, get_or_create.
    unfold db1 at 1. rewrite adminmorph_qs_deleted. fold db1. fold am.
    unfold read_state, fs1, state_of. cbn [state_file dict_get].
    rewrite String.eqb_refl. cbn [ids_of_json]. rewrite ints_of_map.
    reflexivity. }
  assert (Hfresh : forall pid, ~ In (pid, pm_id am) (links db1)).
  { intros pid Hin. apply delete_adminmorph_links in Hin.
    destruct Hin as [Hin Hn]. destruct (Hrows _ _ Hin) as (m & Hm & E).
    assert (Hk : In m (program_modules db1)).
    { apply delete_adminmorph_rows. split; [exact Hm|].
      intros Hh. now apply (Hn m Hm Hh). }
    apply next_pm_id_above in Hk. cbn [am adminmorph_defaults pm_id] in E.
    unfold am in E. cbn [adminmorph_defaults pm_id] in E. lia. }
  split; [exact Hf|]. split; [exact Hrev|]. split; [reflexivity|].
  split; [reflexivity|]. split; [reflexivity|]. split.
  - intros pid. unfold db2, restore_links. cbn [links].
    rewrite add_links_In. rewrite <- Hids. split.
    + intros [Hin|(p & Hp & E)]; [now elim (Hfresh pid)|].
      injection E as ->. apply filter_In in Hp.
      now apply existsb_Zeqb_true.
    + intros Hin. right. exists pid. split; [|reflexivity].
      apply filter_In. split; [|now apply existsb_Zeqb_true].
      apply Hids in Hin. destruct Hin as (m & _ & _ & Hp & _). exact Hp.
  - intros pid m Hm Hh. unfold db2, restore_links. cbn [links].
    rewrite add_links_In.
    assert (Hk : In m (program_modules db1)).
    { apply delete_adminmorph_rows. now split. }
    apply next_pm_id_above in Hk.
    split.
    + intros [Hin|(p & _ & E)].
      * now apply delete_adminmorph_links in Hin.
      * injection E as _ E. unfold am in E.
        cbn [adminmorph_defaults pm_id] in E. lia.
    + intros Hin. left. apply delete_adminmorph_links. split; [exact Hin|].
      intros m' Hm' Hh' E.
      rewrite (same_id_same_row db m' m Huniq Hm' Hm E) in Hh'. contradiction.
Qed.

Lemma migration_round_trip_witness :
  exists fs1 db2,
    remove_adminmorph_programmodule installed writable
    = Done (delete_adminmorph installed) fs1
    /\ restore_adminmorph_programmodule refuse_ids
         (delete_adminmorph installed) fs1
       = Done db2 {| state_file := None; read_only := false |}
    /\ programs db2 = programs installed.
Proof.
  destruct (migration_round_trip refuse_ids installed writable eq_refl)
    as (fs1 & db2 & am & H1 & H2 & _ & _ & H3 & _).
  - intros pid i H. cbn in H.
    destruct H as [[= <- <-]|[[= <- <-]|[[= <- <-]|[]]]].
    + exists morph_row. split; [now left | reflexivity].
    + exists other_row. split; [right; now left | reflexivity].
    + exists morph_row. split; [now left | reflexivity].
  - unfold unique_ids. cbn. repeat constructor; cbn; intuition discriminate.
  - exists fs1, db2. repeat split; assumption.
Defined.

End MigrationMore.
